(** * CABS utilities: side-chain rebuilding and robust superposition

    A shallow embedding of the numerical core of [CABS/utils.py]:
    the side-chain modeller [SCModeler] and the alignment routines
    [kabsch], [rmsd] and [dynamic_kabsch].

    Python floats and numpy's [float64] are IEEE 754 binary64 numbers; they
    are modelled by Rocq's primitive floats, so every definition below can
    be evaluated on concrete inputs with the arithmetic of the program. *)

From Stdlib Require Import Floats ZArith List String Bool Lia Permutation DecimalString.
Import ListNotations.

Set Warnings "-inexact-float".

Open Scope float_scope.

(** ** Python exceptions and results *)

Inductive exn : Type :=
| IndexError
| KeyError (key : string)
| ValueError
| ZeroDivisionError
| LinAlgError
| Exception_ (msg : string).

(** The exceptions numpy raises on arrays that do not fit, on weights that
    sum to zero and on a decomposition that fails. *)
Definition numpy_error (e : exn) : Prop :=
  e = ValueError \/ e = ZeroDivisionError \/ e = LinAlgError.

Inductive result (A : Type) : Type :=
| Ok (a : A)
| Raise (e : exn).

Arguments Ok {A} a.
Arguments Raise {A} e.

Definition bind {A B : Type} (r : result A) (k : A -> result B) : result B :=
  match r with
  | Ok a => k a
  | Raise e => Raise e
  end.

Notation "x <- r ;; k" := (bind r (fun x => k))
  (at level 61, r at next level, right associativity).
Notation "' p <- r ;; k" := (bind r (fun p => k))
  (at level 61, p pattern, r at next level, right associativity).

(** ** numpy on three-component vectors *)

Module Np.

Definition V3 : Type := float * float * float.
Definition M33 : Type := V3 * V3 * V3.

Definition nan3 : V3 := (nan, nan, nan).
Definition zero3 : V3 := (0, 0, 0).
Definition identity3 : M33 := ((1, 0, 0), (0, 1, 0), (0, 0, 1)).
Definition zero33 : M33 := (zero3, zero3, zero3).

Definition vadd (a b : V3) : V3 :=
  let '(a0, a1, a2) := a in let '(b0, b1, b2) := b in
  (a0 + b0, a1 + b1, a2 + b2).

Definition vsub (a b : V3) : V3 :=
  let '(a0, a1, a2) := a in let '(b0, b1, b2) := b in
  (a0 - b0, a1 - b1, a2 - b2).

(** [k * v] with a scalar on the left. *)
Definition smul (k : float) (a : V3) : V3 :=
  let '(a0, a1, a2) := a in (k * a0, k * a1, k * a2).

(** [v * k] with a scalar on the right. *)
Definition vscale (a : V3) (k : float) : V3 :=
  let '(a0, a1, a2) := a in (a0 * k, a1 * k, a2 * k).

(** [v / k]. *)
Definition vdiv (a : V3) (k : float) : V3 :=
  let '(a0, a1, a2) := a in (a0 / k, a1 / k, a2 / k).

(** [np.dot] of two vectors: the products are accumulated from zero in
    index order, as the reference BLAS [ddot] does. *)
Definition dot (a b : V3) : float :=
  let '(a0, a1, a2) := a in let '(b0, b1, b2) := b in
  0 + a0 * b0 + a1 * b1 + a2 * b2.

(** [np.cross] of two vectors. *)
Definition cross (a b : V3) : V3 :=
  let '(a0, a1, a2) := a in let '(b0, b1, b2) := b in
  (a1 * b2 - a2 * b1, a2 * b0 - a0 * b2, a0 * b1 - a1 * b0).

(** [np.linalg.norm] of a vector: [sqrt(dot(x, x))]. *)
Definition norm (a : V3) : float := sqrt (dot a a).

(** [np.sign]. *)
Definition sign (x : float) : float :=
  if 0 <? x then 1
  else if x <? 0 then -1
  else if x =? 0 then 0
  else x.

(** Row vector times matrix, [v.dot(m)]. *)
Definition vecmat (v : V3) (m : M33) : V3 :=
  let '(v0, v1, v2) := v in
  let '((m00, m01, m02), (m10, m11, m12), (m20, m21, m22)) := m in
  (0 + v0 * m00 + v1 * m10 + v2 * m20,
   0 + v0 * m01 + v1 * m11 + v2 * m21,
   0 + v0 * m02 + v1 * m12 + v2 * m22).

Definition transpose (m : M33) : M33 :=
  let '((m00, m01, m02), (m10, m11, m12), (m20, m21, m22)) := m in
  ((m00, m10, m20), (m01, m11, m21), (m02, m12, m22)).

(** Matrix product [np.dot(a, b)]: each row of [a] times [b]. *)
Definition matmul (a b : M33) : M33 :=
  let '(r0, r1, r2) := a in (vecmat r0 b, vecmat r1 b, vecmat r2 b).

(** The determinant by cofactor expansion along the first row. *)
Definition det3 (m : M33) : float :=
  let '((a, b, c), (d, e, f), (g, h, i)) := m in
  a * (e * i - f * h) - b * (d * i - f * g) + c * (d * h - e * g).

Definition close (tol x y : float) : bool := abs (x - y) <? tol.

(** Rows of unit length, orthogonal to each other, determinant one: each up
    to [tol]. *)
Definition is_rotation_within (tol : float) (m : M33) : bool :=
  let '(r0, r1, r2) := m in
  close tol (dot r0 r0) 1 && close tol (dot r1 r1) 1 && close tol (dot r2 r2) 1
  && close tol (dot r0 r1) 0 && close tol (dot r0 r2) 0 && close tol (dot r1 r2) 0
  && close tol (det3 m) 1.

(** Zero of either sign. *)
Definition zero_float (x : float) : Prop := x = 0 \/ x = -0.

Definition zero_vector (v : V3) : Prop :=
  let '(v0, v1, v2) := v in zero_float v0 /\ zero_float v1 /\ zero_float v2.

(** *** Floating-point faults

    Under [np.seterr(all='raise')] an element-wise operation raises
    [FloatingPointError] when it signals invalid, divide-by-zero, overflow
    or underflow.  The predicates below read these signals off the operands
    and the delivered result. *)

Definition is_nan (x : float) : bool :=
  match classify x with NaN => true | _ => false end.

Definition is_inf (x : float) : bool :=
  match classify x with PInf | NInf => true | _ => false end.

Definition is_zero (x : float) : bool :=
  match classify x with PZero | NZero => true | _ => false end.

Definition is_finite (x : float) : bool := negb (is_nan x) && negb (is_inf x).

(** Zero or subnormal. *)
Definition is_tiny (x : float) : bool :=
  match classify x with
  | PZero | NZero | PSubn | NSubn => true
  | _ => false
  end.

(** The exact value [m * 2^e] of a finite float. *)
Definition exact_value (x : float) : option (Z * Z) :=
  match Prim2SF x with
  | S754_zero _ => Some (0%Z, 0%Z)
  | S754_finite s m e => Some ((if s then Z.neg m else Z.pos m), e)
  | _ => None
  end.

Definition same_value (a b : Z * Z) : bool :=
  let e := Z.min (snd a) (snd b) in
  (fst a * 2 ^ (snd a - e) =? fst b * 2 ^ (snd b - e))%Z.

Definition mul_exact (x y : float) : bool :=
  match exact_value x, exact_value y, exact_value (x * y) with
  | Some (mx, ex), Some (my, ey), Some r => same_value ((mx * my)%Z, (ex + ey)%Z) r
  | _, _, _ => true
  end.

Definition div_exact (x y : float) : bool :=
  match exact_value x, exact_value y, exact_value (x / y) with
  | Some vx, Some (my, ey), Some (mq, eq) => same_value ((mq * my)%Z, (eq + ey)%Z) vx
  | _, _, _ => true
  end.

Definition mul_fault (x y : float) : bool :=
  let r := x * y in
  (is_nan r && negb (is_nan x) && negb (is_nan y))
  || (is_inf r && is_finite x && is_finite y)
  || (is_tiny r && is_finite x && is_finite y && negb (mul_exact x y)).

Definition sub_fault (x y : float) : bool :=
  let r := x - y in
  (is_nan r && negb (is_nan x) && negb (is_nan y))
  || (is_inf r && is_finite x && is_finite y).

Definition div_fault (x y : float) : bool :=
  let r := x / y in
  (is_nan r && negb (is_nan x) && negb (is_nan y))
  || (is_zero y && is_finite x && negb (is_zero x))
  || (is_inf r && is_finite x && is_finite y && negb (is_zero y))
  || (is_tiny r && is_finite x && is_finite y && negb (div_exact x y)).

Definition sqrt_fault (x : float) : bool :=
  is_nan (sqrt x) && negb (is_nan x).

Definition cross_fault (a b : V3) : bool :=
  let '(a0, a1, a2) := a in let '(b0, b1, b2) := b in
  mul_fault a1 b2 || mul_fault a2 b1 || sub_fault (a1 * b2) (a2 * b1)
  || mul_fault a2 b0 || mul_fault a0 b2 || sub_fault (a2 * b0) (a0 * b2)
  || mul_fault a0 b1 || mul_fault a1 b0 || sub_fault (a0 * b1) (a1 * b0).

Definition vdiv_fault (a : V3) (k : float) : bool :=
  let '(a0, a1, a2) := a in
  div_fault a0 k || div_fault a1 k || div_fault a2 k.

End Np.

(** ** Side-chain modeller *)

(** [SIDECNT]: side-chain positions relative to the alpha carbon, for a
    compact and for an extended backbone. *)
Definition SIDECNT : list (string * (Np.V3 * Np.V3)) :=
  [ ("CYS", ((-0.139, -1.265, 1.619), (0.019, -0.813, 1.897)));
    ("GLN", ((-0.095, -1.674, 2.612), (0.047, -0.886, 2.991)));
    ("ILE", ((0.094, -1.416, 1.836), (-0.105, -0.659, 2.219)));
    ("SER", ((0.121, -1.476, 1.186), (0.223, -1.042, 1.571)));
    ("VAL", ((0.264, -1.194, 1.531), (0.077, -0.631, 1.854)));
    ("MET", ((-0.04, -1.446, 2.587), (0.072, -0.81, 2.883)));
    ("PRO", ((-0.751, -1.643, 0.467), (-1.016, -1.228, 0.977)));
    ("LYS", ((0.032, -1.835, 2.989), (0.002, -0.882, 3.405)));
    ("THR", ((0.075, -1.341, 1.398), (0.051, -0.909, 1.712)));
    ("PHE", ((0.151, -1.256, 3.161), (-0.448, -0.791, 3.286)));
    ("ALA", ((0.253, -1.133, 0.985), (0.119, -0.763, 1.312)));
    ("HIS", ((-0.301, -1.405, 2.801), (-0.207, -0.879, 3.019)));
    ("GLY", ((0.0, -0.111, -0.111), (0.0, -0.111, -0.111)));
    ("ASP", ((-0.287, -1.451, 1.989), (0.396, -0.798, 2.313)));
    ("GLU", ((-0.028, -1.774, 2.546), (0.096, -0.923, 3.016)));
    ("LEU", ((-0.069, -1.247, 2.292), (0.002, -0.462, 2.579)));
    ("ARG", ((-0.057, -2.522, 3.639), (-0.057, -1.21, 3.986)));
    ("TRP", ((0.558, -1.694, 3.433), (-0.06, -0.574, 3.834)));
    ("ASN", ((-0.402, -1.237, 2.111), (0.132, -0.863, 2.328)));
    ("TYR", ((0.308, -1.387, 3.492), (-0.618, -0.799, 3.634))) ]%string.

Fixpoint lookup {A : Type} (k : string) (d : list (string * A)) : option A :=
  match d with
  | [] => None
  | (k', v) :: d' => if String.eqb k k' then Some v else lookup k d'
  end.

(** Python indexing [l[i]] and [l[-k]] on a sequence. *)
Definition getitem {A : Type} (l : list A) (i : nat) : result A :=
  match nth_error l i with
  | Some a => Ok a
  | None => Raise IndexError
  end.

Definition getitem_neg {A : Type} (l : list A) (k : nat) : result A :=
  if (k <=? List.length l)%nat then getitem l (List.length l - k) else Raise IndexError.

(** Dictionary subscript [d[k]]. *)
Definition subscript {A : Type} (d : list (string * A)) (k : string) : result A :=
  match lookup k d with
  | Some v => Ok v
  | None => Raise (KeyError k)
  end.

(** A residue name that [SIDECNT] has an entry for. *)
Definition known (name : string) : Prop := lookup name SIDECNT <> None.

Module SCModeler.

Import Np.

(** Three points that span a plane: the ends differ, the bisector does not
    vanish and the two bonds are not parallel. *)
Definition valid_triplet (c1 c2 c3 : V3) : bool :=
  negb (norm (vsub c3 c1) =? 0)
  && negb (norm (vadd (vsub c3 c2) (vsub c1 c2)) =? 0)
  && negb (norm (cross (vsub c3 c2) (vsub c1 c2)) =? 0).

(** Local system base for the alpha carbon [c2]: three axes and the
    distance between [c1] and [c3].  The caller's numpy error state is the
    default one, which the program never changes outside [_calc_rot_mtx]:
    a division by zero delivers its IEEE result. *)
Definition _mk_local_system (c1 c2 c3 : V3) : V3 * V3 * V3 * float :=
  let rdif := vsub c3 c1 in
  let rdnorm := norm rdif in
  let rsum := vadd (vsub c3 c2) (vsub c1 c2) in
  let z := vdiv (smul (-1) rsum) (norm rsum) in
  let x := vdiv rdif rdnorm in
  let y := cross z x in
  (x, y, z, rdnorm).

(** The versor unchanged by the transformation of [old_v] into [new_v].
    [raising] is the numpy error state the caller has set: with
    [all='raise'] a fault of an element-wise operation (the products and
    differences of [np.cross], the square root and the division) raises
    [FloatingPointError], here [None].  The sum of squares inside
    [np.linalg.norm] is a BLAS product, which numpy does not watch. *)
Definition _calc_nodes_line (raising : bool) (old_v new_v : V3) : option V3 :=
  let w := cross old_v new_v in
  let n := norm w in
  if raising && (cross_fault old_v new_v || sqrt_fault (dot w w) || vdiv_fault w n)
  then None
  else Some (vdiv w n).

(** Cosine and sine between two versors. *)
Definition _calc_trig_fnc (ve1 ve2 axis : V3) : float * float :=
  let cos := dot ve1 ve2 in
  let perp_vec := cross ve1 ve2 in
  let sin := norm perp_vec * sign (dot perp_vec axis) in
  (cos, sin).

(** The matrix assembled from the three pairs of trigonometric values. *)
Definition rot_of_trig (ph ps th : float * float) : M33 :=
  let '(cph, sph) := ph in
  let '(cps, sps) := ps in
  let '(cth, sth) := th in
  ((cps * cph - sps * sph * cth, sph * cps + sps * cth * cph, sps * sth),
   ((-1) * sps * cph - sph * cps * cth, (-1) * sps * sph + cps * cth * cph, cps * sth),
   (sth * sph, (- sth) * cph, cth)).

(** The line of nodes: [_calc_nodes_line] run under [all='raise'], with the
    local x axis taken when it raises. *)
Definition nodes_line_or_x (x z : V3) : V3 :=
  match _calc_nodes_line true (0, 0, 1) z with
  | Some w => w
  | None => x
  end.

(** The matrix that the program documents as the rotation from the
    Cartesian system to the system of the alpha carbon [c2], and the
    distance between [c1] and [c3].  (The debugging hook [dbg] is left
    out.) *)
Definition _calc_rot_mtx (c1 c2 c3 : V3) : M33 * float :=
  let '(x, y, z, rdnorm) := _mk_local_system c1 c2 c3 in
  let w := nodes_line_or_x x z in
  let ph := _calc_trig_fnc (1, 0, 0) w (0, 0, 1) in
  let ps := _calc_trig_fnc w x z in
  let th := _calc_trig_fnc (0, 0, 1) z w in
  (rot_of_trig ph ps th, rdnorm).

Definition _calc_scatter_coef (dist : float) : float :=
  if dist <? 5.3 then 1
  else if 6.4 <? dist then 0
  else (dist - 5.3) * (- (1 / 1.1)) + 1.

(** One residue of [rebuild_one]'s loop. *)
Definition rebuild_residue (nms : list string) (sc : bool) (vec : list V3) (i : nat)
  : result V3 :=
  c1 <- getitem vec i ;;
  c2 <- getitem vec (i + 1) ;;
  c3 <- getitem vec (i + 2) ;;
  let '(rot, casdist) := _calc_rot_mtx c1 c2 c3 in
  let coef := _calc_scatter_coef casdist in
  name <- (if sc then getitem nms i else Ok "ALA"%string) ;;
  '(compact, scattered) <- subscript SIDECNT name ;;
  let comp := vscale compact coef in
  let scat := vscale scattered (1 - coef) in
  let rbld := vadd comp scat in
  Ok (vadd (vecmat rbld rot) c2).

Fixpoint rebuild_loop (nms : list string) (sc : bool) (vec : list V3) (idx : list nat)
  : result (list V3) :=
  match idx with
  | [] => Ok []
  | i :: idx' =>
      p <- rebuild_residue nms sc vec i ;;
      ps <- rebuild_loop nms sc vec idx' ;;
      Ok (p :: ps)
  end.

(** The first two statements of [rebuild_one]: a point is inserted before
    the first and appended after the last. *)
Definition padded (vec : list V3) : result (list V3) :=
  v0 <- getitem vec 0 ;;
  v2 <- getitem vec 2 ;;
  v1 <- getitem vec 1 ;;
  let vec := vsub v0 (vsub v2 v1) :: vec in
  l1 <- getitem_neg vec 1 ;;
  l2 <- getitem_neg vec 2 ;;
  l3 <- getitem_neg vec 3 ;;
  Ok (vec ++ [vadd l1 (vsub l2 l3)]).

(** Takes the alpha-carbon coordinates and returns the side-chain
    coordinates; [nms] holds the residue names of [self.nms]. *)
Definition rebuild_one (nms : list string) (vec : list V3) (sc : bool)
  : result (list V3) :=
  vec <- padded vec ;;
  rebuild_loop nms sc vec (seq 0 (List.length vec - 2)).

End SCModeler.

(** ** Superposition: [kabsch], [rmsd], [dynamic_kabsch] *)

(** The numpy routines whose result is computed by a library outside the
    program (LAPACK's singular value decomposition and determinant, libm's
    exponential).  [np_linalg_svd c] stands for the triple [(v, s, w)] of
    [v, s, w = np.linalg.svd(c)], or for [None] when the routine raises
    [LinAlgError], as it does on a matrix that holds a not-a-number or an
    infinity. *)
Record Externals : Type := {
  np_linalg_svd : Np.M33 -> option (Np.M33 * Np.V3 * Np.M33);
  np_linalg_det : Np.M33 -> float;
  np_exp : float -> float
}.

Module Align.

Import Np.

(** *** Sums

    numpy adds up a contiguous one-dimensional array of doubles with its
    pairwise summation, and the order of the additions is part of the
    result.  Fewer than eight items are added in index order, starting from
    zero (or from minus zero, with the same result, see
    [SumFacts.fsum_from_minus_zero]).  Up to [PW_BLOCKSIZE] items go to
    eight accumulators: the first eight items fill them, every further
    group of eight is added to them item by item, the accumulators are
    added up as a balanced tree, and the items left over are added to that
    in index order.  A longer array is cut in two at a multiple of eight
    and the sums of the two parts are added. *)

Definition acc8 : Type :=
  float * float * float * float * float * float * float * float.

(** The unrolled loop: whole groups of eight are added to the
    accumulators; what is returned with them is the rest, fewer than eight
    items. *)
Fixpoint add_groups (r : acc8) (a : list float) : acc8 * list float :=
  match a with
  | a0 :: a1 :: a2 :: a3 :: a4 :: a5 :: a6 :: a7 :: a' =>
      let '(r0, r1, r2, r3, r4, r5, r6, r7) := r in
      add_groups (r0 + a0, r1 + a1, r2 + a2, r3 + a3,
                  r4 + a4, r5 + a5, r6 + a6, r7 + a7) a'
  | _ => (r, a)
  end.

(** The sum of one block, of at most [PW_BLOCKSIZE] items. *)
Definition block_sum (a : list float) : float :=
  match a with
  | a0 :: a1 :: a2 :: a3 :: a4 :: a5 :: a6 :: a7 :: a' =>
      let '((r0, r1, r2, r3, r4, r5, r6, r7), rest) :=
        add_groups (a0, a1, a2, a3, a4, a5, a6, a7) a' in
      fold_left add rest (((r0 + r1) + (r2 + r3)) + ((r4 + r5) + (r6 + r7)))
  | _ => fold_left add a 0
  end.

Definition PW_BLOCKSIZE : nat := 128.

(** The recursion of the pairwise summation.  [depth] bounds the number of
    cuts; the length of the array is always enough ([SumFacts.pairwise_sum_depth]
    below). *)
Fixpoint pairwise_sum (depth : nat) (a : list float) : float :=
  let n := List.length a in
  match depth with
  | S depth' =>
      if (n <=? PW_BLOCKSIZE)%nat then block_sum a
      else
        let n2 := (n / 2 - (n / 2) mod 8)%nat in
        pairwise_sum depth' (firstn n2 a) + pairwise_sum depth' (skipn n2 a)
  | O => block_sum a
  end.

(** [sum] of a one-dimensional array: the reduction starts from the
    identity of the addition and adds the pairwise sum to it. *)
Definition fsum (l : list float) : float := 0 + pairwise_sum (List.length l) l.

(** [sum(axis=0)] of an array of rows.  The reduction does not run along
    the contiguous axis, so there is no pairwise summation here: the rows
    are added one after the other to a row of zeros. *)
Definition vsum (l : list V3) : V3 := fold_left vadd l zero3.

(** Element-wise combination of two arrays of the same length; numpy
    refuses operands of different lengths.  (The broadcast of a one-row
    operand is not used by the program and is not modelled.) *)
Definition zip_with {A B C : Type} (f : A -> B -> C) (a : list A) (b : list B)
  : result (list C) :=
  if (List.length a =? List.length b)%nat
  then Ok (map (fun p => f (fst p) (snd p)) (combine a b))
  else Raise ValueError.

(** [np.average(a, axis=0, weights=weights)] of an array of rows. *)
Definition np_average (a : list V3) (weights : option (list float)) : result V3 :=
  match weights with
  | None => Ok (vdiv (vsum a) (of_uint63 (Uint63.of_Z (Z.of_nat (List.length a)))))
  | Some wgt =>
      aw <- zip_with vscale a wgt ;;
      let scl := fsum wgt in
      if scl =? 0 then Raise ZeroDivisionError
      else Ok (vdiv (vsum aw) scl)
  end.

(** [np.average(a, axis=0, weights=weights)] of a one-dimensional array. *)
Definition np_average1 (a : list float) (weights : option (list float)) : result float :=
  match weights with
  | None => Ok (fsum a / of_uint63 (Uint63.of_Z (Z.of_nat (List.length a))))
  | Some wgt =>
      aw <- zip_with mul a wgt ;;
      let scl := fsum wgt in
      if scl =? 0 then Raise ZeroDivisionError
      else Ok (fsum aw / scl)
  end.

Definition madd (a b : M33) : M33 :=
  let '(a0, a1, a2) := a in let '(b0, b1, b2) := b in
  (vadd a0 b0, vadd a1 b1, vadd a2 b2).

(** The row-by-column products of one point pair. *)
Definition outer (p q : V3) : M33 :=
  let '(p0, p1, p2) := p in (smul p0 q, smul p1 q, smul p2 q).

(** [np.dot(t.T, q)]: the products are accumulated from zero over the
    points, in index order. *)
Definition dot_T (t q : list V3) : result M33 :=
  o <- zip_with outer t q ;;
  Ok (fold_left madd o zero33).

(** The truth value of the [weights] argument in [if weights]. *)
Definition truthy (weights : option (list float)) : bool :=
  match weights with
  | Some (_ :: _) => true
  | _ => false
  end.

Definition reflection_fix (negative : bool) : M33 :=
  if negative then ((1, 0, 0), (0, 1, 0), (0, 0, -1)) else identity3.

(** The points less a centroid, [a - com]. *)
Definition centred (a : list V3) (com : V3) : list V3 :=
  map (fun p => vsub p com) a.

(** The matrix [c] of [kabsch]:
    [np.dot(weights * t.T, q) if weights else np.dot(t.T, q)]. *)
Definition covariance (t q : list V3) (weights : option (list float)) : result M33 :=
  if truthy weights
  then
    wt <- zip_with smul (match weights with Some w => w | None => [] end) t ;;
    dot_T wt q
  else dot_T t q.

Section WithExternals.

Variable E : Externals.

(** Best-fit rotation. *)
Definition kabsch (target query : list V3) (weights : option (list float))
  (concentric : bool) : result M33 :=
  '(t, q) <- (if concentric then Ok (target, query)
              else
                tc <- np_average target weights ;;
                qc <- np_average query weights ;;
                Ok (centred target tc, centred query qc)) ;;
  c <- covariance t q weights ;;
  match np_linalg_svd E c with
  | None => Raise LinAlgError
  | Some (v, s, w) =>
      let d := reflection_fix (np_linalg_det E c <? 0) in
      Ok (matmul (matmul (transpose w) d) (transpose v))
  end.

Definition _LARGE : float := 1000.
Definition _TINY : float := 0.001.

(** [np.sum(d ** 2, axis=1)] for one row. *)
Definition sumsq (d : V3) : float :=
  let '(d0, d1, d2) := d in d0 * d0 + d1 * d1 + d2 * d2.

(** The square root of the weighted average that [rmsd] computes before it
    compares it with [_TINY]. *)
Definition rmsd_raw (target : list V3) (query : option (list V3))
  (weights : option (list float)) : result float :=
  _diff <- match query with
           | None => Ok target
           | Some q => zip_with vsub q target
           end ;;
  avg <- np_average1 (map sumsq _diff) weights ;;
  Ok (sqrt avg).

Definition rmsd (target : list V3) (query : option (list V3))
  (weights : option (list float)) : result float :=
  _rmsd <- rmsd_raw target query weights ;;
  Ok (if _TINY <? _rmsd then _rmsd else 0).

(** Python's [max(a, b)]. *)
Definition py_max (a b : float) : float := if a <? b then b else a.

(** What one pass of the loop of [dynamic_kabsch] computes. *)
Record pass : Type := {
  t_com : V3;
  q_com : V3;
  r : M33;
  _diff : list V3;
  _current : float
}.

Definition loop_body (target query : list V3) (w : list float) : result pass :=
  t_com <- np_average target (Some w) ;;
  q_com <- np_average query (Some w) ;;
  let t := centred target t_com in
  let q := centred query q_com in
  r <- kabsch t q (Some w) true ;;
  let q := map (fun p => vecmat p r) q in
  _diff <- zip_with vsub q t ;;
  _current <- rmsd _diff None (Some w) ;;
  Ok {| t_com := t_com; q_com := q_com; r := r; _diff := _diff; _current := _current |}.

(** The convergence test of a pass against the stored [_rmsd]. *)
Definition converged (_rmsd : float) (p : pass) : bool :=
  abs (_current p - _rmsd) <? _TINY.

(** The weights for the next pass. *)
Definition reweight (p : pass) : list float :=
  map (fun d => np_exp E ((- sumsq d) / py_max (_current p) 2)) (_diff p).

Definition _MAX_ITER : nat := 100.

Definition not_converged : exn :=
  Exception_ "Dynamic Kabsch did not converge in 100 steps.".

(** The [for] loop with [left] passes to go. *)
Fixpoint loop (left : nat) (target query : list V3) (_rmsd : float) (w : list float)
  : result (float * M33 * V3 * V3) :=
  match left with
  | O => Raise not_converged
  | S left' =>
      p <- loop_body target query w ;;
      if converged _rmsd p
      then Ok (_rmsd, r p, t_com p, q_com p)
      else loop left' target query (_current p) (reweight p)
  end.

Definition dynamic_kabsch (target query : list V3)
  : result (float * M33 * V3 * V3) :=
  loop _MAX_ITER target query _LARGE (repeat 1 (List.length target)).

(** [reaches target query k rmsd w]: the loop of [dynamic_kabsch] starts its
    pass number [k] (counted from zero) with [_rmsd = rmsd] and the weights
    [w]; the [k] passes before it have completed without meeting the
    convergence test. *)
Inductive reaches (target query : list V3) : nat -> float -> list float -> Prop :=
| reaches_first : reaches target query 0 _LARGE (repeat 1 (List.length target))
| reaches_next k rmsd w p :
    reaches target query k rmsd w ->
    loop_body target query w = Ok p ->
    converged rmsd p = false ->
    reaches target query (S k) (_current p) (reweight p).

(** The result is made of what the pass before the converging one
    computed: its RMSD, its rotation and its two centroids. *)
Definition from_previous_pass (target query : list V3)
  (res : float * M33 * V3 * V3) : Prop :=
  exists k rmsd w p p',
    reaches target query k rmsd w
    /\ loop_body target query w = Ok p
    /\ converged rmsd p = false
    /\ loop_body target query (reweight p) = Ok p'
    /\ converged (_current p) p' = true
    /\ res = (_current p, r p, t_com p, q_com p).

End WithExternals.

(** The per-point displacements [query - target]. *)
Definition displacements (target query : list V3) : list V3 :=
  map (fun p => vsub (fst p) (snd p)) (combine query target).

(** The weighted root mean square of displacements: the square root of
    the sum of [w_i * |d_i|^2] over the sum of the [w_i]. *)
Definition weighted_rms (disp : list V3) (w : list float) : float :=
  sqrt (fsum (map (fun p => fst p * snd p) (combine (map sumsq disp) w)) / fsum w).


End Align.

(** ** External routines on the inputs of the examples

    The examples below only meet a covariance matrix that is diagonal with a
    non-negative, non-increasing diagonal, and arguments of [exp] that are
    zero or below [-746].  There the results of the libraries are known
    without running them. *)

Module Examples.

Import Np.

(** A number that is neither an infinity nor not-a-number. *)
Definition finite (x : float) : bool := abs x <? infinity.

(** A singular value decomposition of a diagonal matrix with non-negative,
    non-increasing diagonal: identity factors around the diagonal.  On a
    matrix that holds an infinity or a not-a-number the routine fails. *)
Definition svd_of_sorted_diagonal (c : M33) : option (M33 * V3 * M33) :=
  let '((c00, c01, c02), (c10, c11, c12), (c20, c21, c22)) := c in
  if forallb finite [c00; c01; c02; c10; c11; c12; c20; c21; c22]
  then Some (identity3, (c00, c11, c22), identity3)
  else None.

(** [exp] where its value is exact: [1] at zero, and [0] once the true
    value lies below half the smallest subnormal.  Other arguments do not
    occur in the examples. *)
Definition exp_at_edges (x : float) : float :=
  if x =? 0 then 1
  else if x <? -746 then 0
  else nan.

Definition externals : Externals := {|
  np_linalg_svd := svd_of_sorted_diagonal;
  np_linalg_det := Np.det3;
  np_exp := exp_at_edges
|}.

(** A query whose two points coincide, and a target of two opposite points
    at distance [a] from the origin. *)
Definition coincident : list V3 := [(0, 0, 0); (0, 0, 0)].
Definition opposite (a : float) : list V3 := [(a, 0, 0); (- a, 0, 0)].

End Examples.

(** ** Helper functions of [CABS/utils.py] *)

Module Utils.

(** Exceptions of the helper functions: the built-in ones above, a
    [TypeError], and the module's own [InvalidAAName]. *)
Inductive error : Type :=
| Builtin (e : exn)
| TypeError
| InvalidAAName (name : string) (l : nat).

Inductive outcome (A : Type) : Type :=
| Return (a : A)
| Fail (e : error).

Arguments Return {A} a.
Arguments Fail {A} e.

(** *** Slices and repetition of Python lists *)

(** Where a slice bound [k] falls in a list of length [len]: a negative
    bound counts from the end, and bounds outside the list are clipped. *)
Definition slice_bound (len : nat) (k : Z) : nat :=
  if (k <? 0)%Z then Z.to_nat (Z.max 0 (Z.of_nat len + k)) else Z.to_nat k.

(** [lst[:k]] and [lst[k:]]. *)
Definition slice_to {A : Type} (lst : list A) (k : Z) : list A :=
  firstn (slice_bound (List.length lst) k) lst.

Definition slice_from {A : Type} (lst : list A) (k : Z) : list A :=
  skipn (slice_bound (List.length lst) k) lst.

(** [[token] * n]: empty for a negative [n]. *)
Definition times {A : Type} (token : A) (n : Z) : list A :=
  repeat token (Z.to_nat n).

(** *** [_chunk_lst] and [_extend_last] *)

(** [_extend_last]: the last slice is extended in place to [slen] items;
    when there is no slice [sseries[-1]] raises [IndexError], which is
    caught, and a slice of [slen] tokens is appended. *)
Definition _extend_last {A : Type} (sseries : list (list A)) (slen : Z) (token : A)
  : list (list A) :=
  match sseries with
  | [] => [times token slen]
  | _ :: _ =>
      let l := last sseries [] in
      removelast sseries ++ [l ++ times token (slen - Z.of_nat (List.length l))]
  end.

(** The [while lst != []] loop; [fuel] bounds the number of tests of its
    condition and [None] says that the bound was reached. *)
Fixpoint chunk_loop {A : Type} (fuel : nat) (lst : list A) (sl_len : Z)
  (slists : list (list A)) : option (list (list A)) :=
  match fuel with
  | O => None
  | S fuel' =>
      match lst with
      | [] => Some slists
      | _ :: _ =>
          chunk_loop fuel' (slice_from lst sl_len) sl_len (slists ++ [slice_to lst sl_len])
      end
  end.

(** [extend_last] is [None] for Python's [None]. *)
Definition _chunk_lst {A : Type} (fuel : nat) (lst : list A) (sl_len : Z)
  (extend_last : option A) : option (list (list A)) :=
  match chunk_loop fuel lst sl_len [] with
  | None => None
  | Some slists =>
      match extend_last with
      | Some token => Some (_extend_last slists sl_len token)
      | None => Some slists
      end
  end.

(** *** [ranges] *)

(** The [for] loop of [ranges] over the rest of the data. *)
Fixpoint ranges_loop (first prev : Z) (idata : list Z) (result : list (Z * Z))
  : list (Z * Z) :=
  match idata with
  | [] => result ++ [(first, prev + 1)%Z]
  | following :: idata' =>
      if (following - prev =? 1)%Z
      then ranges_loop first following idata' result
      else ranges_loop following following idata' (result ++ [(first, prev + 1)%Z])
  end.

Definition ranges (data : list Z) : list (Z * Z) :=
  match data with
  | [] => []
  | x :: idata => ranges_loop x x idata []
  end.

(** Python's [range(a, b)]. *)
Definition py_range (a b : Z) : list Z :=
  map (fun i => (a + Z.of_nat i)%Z) (seq 0 (Z.to_nat (b - a))).

(** The integers that a list of half-open ranges stands for. *)
Definition expand (rs : list (Z * Z)) : list Z :=
  flat_map (fun ab => py_range (fst ab) (snd ab)) rs.

(** A list of ranges as [ranges] writes them: none is empty, and none
    starts where the one before it ends. *)
Fixpoint run_form (rs : list (Z * Z)) : Prop :=
  match rs with
  | [] => True
  | (a, b) :: rs' =>
      (a < b)%Z
      /\ match rs' with
         | [] => True
         | (c, _) :: _ => c <> b
         end
      /\ run_form rs'
  end.

End Utils.

(** ** Residue names *)

Module Residues.

Import Utils.

(** [AA_NAMES]: one-letter code to three-letter name. *)
Definition AA_NAMES : list (string * string) :=
  [
    ("A", "ALA"); ("C", "CYS"); ("D", "ASP"); ("E", "GLU");
    ("F", "PHE"); ("G", "GLY"); ("H", "HIS"); ("I", "ILE");
    ("K", "LYS"); ("L", "LEU"); ("M", "MET"); ("N", "ASN");
    ("P", "PRO"); ("Q", "GLN"); ("R", "ARG"); ("S", "SER");
    ("T", "THR"); ("V", "VAL"); ("W", "TRP"); ("Y", "TYR")
  ]%string.

(** [AA_SUB_NAMES]: the standard residue that stands in for a modified
    one. *)
Definition AA_SUB_NAMES : list (string * string) :=
  [
    ("0CS", "ALA"); ("1AB", "PRO"); ("1LU", "LEU"); ("1PA", "PHE");
    ("1TQ", "TRP"); ("1TY", "TYR"); ("23F", "PHE"); ("23S", "TRP");
    ("2BU", "ALA"); ("2ML", "LEU"); ("2MR", "ARG"); ("2MT", "PRO");
    ("2OP", "ALA"); ("2TY", "TYR"); ("32S", "TRP"); ("32T", "TRP");
    ("3AH", "HIS"); ("3MD", "ASP"); ("3TY", "TYR"); ("4DP", "TRP");
    ("4F3", "ALA"); ("4FB", "PRO"); ("4FW", "TRP"); ("4HT", "TRP");
    ("4IN", "TRP"); ("4PH", "PHE"); ("5CS", "CYS"); ("6CL", "LYS");
    ("6CW", "TRP"); ("A0A", "ASP"); ("AA4", "ALA"); ("AAR", "ARG");
    ("AB7", "GLU"); ("ABA", "ALA"); ("ACB", "ASP"); ("ACL", "ARG");
    ("ACY", "GLY"); ("AEI", "THR"); ("AFA", "ASN"); ("AGM", "ARG");
    ("AGT", "CYS"); ("AHB", "ASN"); ("AHO", "ALA"); ("AHP", "ALA");
    ("AIB", "ALA"); ("AKL", "ASP"); ("ALA", "ALA"); ("ALC", "ALA");
    ("ALG", "ARG"); ("ALM", "ALA"); ("ALN", "ALA"); ("ALO", "THR");
    ("ALS", "ALA"); ("ALT", "ALA"); ("ALY", "LYS"); ("AME", "MET");
    ("AP7", "ALA"); ("APH", "ALA"); ("API", "LYS"); ("APK", "LYS");
    ("AR2", "ARG"); ("AR4", "GLU"); ("ARG", "ARG"); ("ARM", "ARG");
    ("ARO", "ARG"); ("ASA", "ASP"); ("ASB", "ASP"); ("ASI", "ASP");
    ("ASK", "ASP"); ("ASL", "ASP"); ("ASN", "ASN"); ("ASP", "ASP");
    ("AYA", "ALA"); ("AYG", "ALA"); ("AZK", "LYS"); ("B2A", "ALA");
    ("B2F", "PHE"); ("B2I", "ILE"); ("B2V", "VAL"); ("B3A", "ALA");
    ("B3D", "ASP"); ("B3E", "GLU"); ("B3K", "LYS"); ("B3S", "SER");
    ("B3X", "ASN"); ("B3Y", "TYR"); ("BAL", "ALA"); ("BBC", "CYS");
    ("BCS", "CYS"); ("BCX", "CYS"); ("BFD", "ASP"); ("BG1", "SER");
    ("BHD", "ASP"); ("BIF", "PHE"); ("BLE", "LEU"); ("BLY", "LYS");
    ("BMT", "THR"); ("BNN", "ALA"); ("BOR", "ARG"); ("BPE", "CYS");
    ("BTR", "TRP"); ("BUC", "CYS"); ("BUG", "LEU"); ("C12", "ALA");
    ("C1X", "LYS"); ("C3Y", "CYS"); ("C5C", "CYS"); ("C6C", "CYS");
    ("C99", "ALA"); ("CAB", "ALA"); ("CAF", "CYS"); ("CAS", "CYS");
    ("CCS", "CYS"); ("CGU", "GLU"); ("CH6", "ALA"); ("CH7", "ALA");
    ("CHG", "GLY"); ("CHP", "GLY"); ("CHS", "PHE"); ("CIR", "ARG");
    ("CLB", "ALA"); ("CLD", "ALA"); ("CLE", "LEU"); ("CLG", "LYS");
    ("CLH", "LYS"); ("CLV", "ALA"); ("CME", "CYS"); ("CML", "CYS");
    ("CMT", "CYS"); ("CQR", "ALA"); ("CR2", "ALA"); ("CR5", "ALA");
    ("CR7", "ALA"); ("CR8", "ALA"); ("CRK", "ALA"); ("CRO", "THR");
    ("CRQ", "TYR"); ("CRW", "ALA"); ("CRX", "ALA"); ("CS1", "CYS");
    ("CS3", "CYS"); ("CS4", "CYS"); ("CSA", "CYS"); ("CSB", "CYS");
    ("CSD", "CYS"); ("CSE", "CYS"); ("CSI", "ALA"); ("CSO", "CYS");
    ("CSR", "CYS"); ("CSS", "CYS"); ("CSU", "CYS"); ("CSW", "CYS");
    ("CSX", "CYS"); ("CSY", "ALA"); ("CSZ", "CYS"); ("CTH", "THR");
    ("CWR", "ALA"); ("CXM", "MET"); ("CY0", "CYS"); ("CY1", "CYS");
    ("CY3", "CYS"); ("CY4", "CYS"); ("CY7", "CYS"); ("CYD", "CYS");
    ("CYF", "CYS"); ("CYG", "CYS"); ("CYJ", "LYS"); ("CYQ", "CYS");
    ("CYR", "CYS"); ("CYS", "CYS"); ("CZ2", "CYS"); ("CZZ", "CYS");
    ("DA2", "ARG"); ("DAB", "ALA"); ("DAH", "PHE"); ("DAL", "ALA");
    ("DAM", "ALA"); ("DAR", "ARG"); ("DAS", "ASP"); ("DBU", "ALA");
    ("DBY", "TYR"); ("DBZ", "ALA"); ("DCL", "LEU"); ("DCY", "CYS");
    ("DDE", "HIS"); ("DGL", "GLU"); ("DGN", "GLN"); ("DHA", "ALA");
    ("DHI", "HIS"); ("DHL", "SER"); ("DIL", "ILE"); ("DIV", "VAL");
    ("DLE", "LEU"); ("DLS", "LYS"); ("DLY", "LYS"); ("DMH", "ASN");
    ("DMK", "ASP"); ("DNE", "LEU"); ("DNG", "LEU"); ("DNL", "LYS");
    ("DNM", "LEU"); ("DPH", "PHE"); ("DPL", "PRO"); ("DPN", "PHE");
    ("DPP", "ALA"); ("DPQ", "TYR"); ("DPR", "PRO"); ("DSE", "SER");
    ("DSG", "ASN"); ("DSN", "SER"); ("DTH", "THR"); ("DTR", "TRP");
    ("DTY", "TYR"); ("DVA", "VAL"); ("DYG", "ALA"); ("DYS", "CYS");
    ("EFC", "CYS"); ("ESB", "TYR"); ("ESC", "MET"); ("FCL", "PHE");
    ("FGL", "ALA"); ("FGP", "SER"); ("FHL", "LYS"); ("FLE", "LEU");
    ("FLT", "TYR"); ("FME", "MET"); ("FOE", "CYS"); ("FOG", "PHE");
    ("FOR", "MET"); ("FRF", "PHE"); ("FTR", "TRP"); ("FTY", "TYR");
    ("GHG", "GLN"); ("GHP", "GLY"); ("GL3", "GLY"); ("GLH", "GLN");
    ("GLN", "GLN"); ("GLU", "GLU"); ("GLY", "GLY"); ("GLZ", "GLY");
    ("GMA", "GLU"); ("GMU", "ALA"); ("GPL", "LYS"); ("GT9", "CYS");
    ("GVL", "SER"); ("GYC", "CYS"); ("GYS", "GLY"); ("H5M", "PRO");
    ("HHK", "ALA"); ("HIA", "HIS"); ("HIC", "HIS"); ("HIP", "HIS");
    ("HIQ", "HIS"); ("HIS", "HIS"); ("HLU", "LEU"); ("HMF", "ALA");
    ("HMR", "ARG"); ("HPE", "PHE"); ("HPH", "PHE"); ("HPQ", "PHE");
    ("HRG", "ARG"); ("HSE", "SER"); ("HSL", "SER"); ("HSO", "HIS");
    ("HTI", "CYS"); ("HTR", "TRP"); ("HY3", "PRO"); ("HYP", "PRO");
    ("IAM", "ALA"); ("IAS", "ASP"); ("IGL", "ALA"); ("IIL", "ILE");
    ("ILE", "ILE"); ("ILG", "GLU"); ("ILX", "ILE"); ("IML", "ILE");
    ("IPG", "GLY"); ("IT1", "LYS"); ("IYR", "TYR"); ("KCX", "LYS");
    ("KGC", "LYS"); ("KOR", "CYS"); ("KST", "LYS"); ("KYN", "ALA");
    ("LA2", "LYS"); ("LAL", "ALA"); ("LCK", "LYS"); ("LCX", "LYS");
    ("LDH", "LYS"); ("LED", "LEU"); ("LEF", "LEU"); ("LET", "LYS");
    ("LEU", "LEU"); ("LLP", "LYS"); ("LLY", "LYS"); ("LME", "GLU");
    ("LNT", "LEU"); ("LPD", "PRO"); ("LSO", "LYS"); ("LYM", "LYS");
    ("LYN", "LYS"); ("LYP", "LYS"); ("LYR", "LYS"); ("LYS", "LYS");
    ("LYX", "LYS"); ("LYZ", "LYS"); ("M0H", "CYS"); ("M2L", "LYS");
    ("M3L", "LYS"); ("MAA", "ALA"); ("MAI", "ARG"); ("MBQ", "TYR");
    ("MC1", "SER"); ("MCL", "LYS"); ("MCS", "CYS"); ("MDO", "ALA");
    ("MEA", "PHE"); ("MEG", "GLU"); ("MEN", "ASN"); ("MET", "MET");
    ("MEU", "GLY"); ("MFC", "ALA"); ("MGG", "ARG"); ("MGN", "GLN");
    ("MHL", "LEU"); ("MHO", "MET"); ("MHS", "HIS"); ("MIS", "SER");
    ("MLE", "LEU"); ("MLL", "LEU"); ("MLY", "LYS"); ("MLZ", "LYS");
    ("MME", "MET"); ("MNL", "LEU"); ("MNV", "VAL"); ("MPQ", "GLY");
    ("MSA", "GLY"); ("MSE", "MET"); ("MSO", "MET"); ("MTY", "PHE");
    ("MVA", "VAL"); ("N10", "SER"); ("NAL", "ALA"); ("NAM", "ALA");
    ("NBQ", "TYR"); ("NC1", "SER"); ("NCB", "ALA"); ("NEP", "HIS");
    ("NFA", "PHE"); ("NIY", "TYR"); ("NLE", "LEU"); ("NLN", "LEU");
    ("NLO", "LEU"); ("NMC", "GLY"); ("NMM", "ARG"); ("NPH", "CYS");
    ("NRQ", "ALA"); ("NVA", "VAL"); ("NYC", "ALA"); ("NYS", "CYS");
    ("NZH", "HIS"); ("OAS", "SER"); ("OBS", "LYS"); ("OCS", "CYS");
    ("OCY", "CYS"); ("OHI", "HIS"); ("OHS", "ASP"); ("OLT", "THR");
    ("OMT", "MET"); ("OPR", "ARG"); ("ORN", "ALA"); ("ORQ", "ARG");
    ("OSE", "SER"); ("OTY", "TYR"); ("OXX", "ASP"); ("P1L", "CYS");
    ("P2Y", "PRO"); ("PAQ", "TYR"); ("PAT", "TRP"); ("PBB", "CYS");
    ("PBF", "PHE"); ("PCA", "PRO"); ("PCS", "PHE"); ("PEC", "CYS");
    ("PF5", "PHE"); ("PFF", "PHE"); ("PG1", "SER"); ("PG9", "GLY");
    ("PHA", "PHE"); ("PHD", "ASP"); ("PHE", "PHE"); ("PHI", "PHE");
    ("PHL", "PHE"); ("PHM", "PHE"); ("PIA", "ALA"); ("PLE", "LEU");
    ("PM3", "PHE"); ("POM", "PRO"); ("PPH", "LEU"); ("PPN", "PHE");
    ("PR3", "CYS"); ("PRO", "PRO"); ("PRQ", "PHE"); ("PRR", "ALA");
    ("PRS", "PRO"); ("PSA", "PHE"); ("PSH", "HIS"); ("PTH", "TYR");
    ("PTM", "TYR"); ("PTR", "TYR"); ("PYA", "ALA"); ("PYC", "ALA");
    ("PYR", "SER"); ("PYT", "ALA"); ("PYX", "CYS"); ("R1A", "CYS");
    ("R1B", "CYS"); ("R1F", "CYS"); ("R7A", "CYS"); ("RC7", "ALA");
    ("RCY", "CYS"); ("S1H", "SER"); ("SAC", "SER"); ("SAH", "CYS");
    ("SAR", "GLY"); ("SBD", "SER"); ("SBG", "SER"); ("SBL", "SER");
    ("SC2", "CYS"); ("SCH", "CYS"); ("SCS", "CYS"); ("SCY", "CYS");
    ("SDP", "SER"); ("SEB", "SER"); ("SEC", "ALA"); ("SEL", "SER");
    ("SEP", "SER"); ("SER", "SER"); ("SET", "SER"); ("SGB", "SER");
    ("SGR", "SER"); ("SHC", "CYS"); ("SHP", "GLY"); ("SIC", "ALA");
    ("SLZ", "LYS"); ("SMC", "CYS"); ("SME", "MET"); ("SMF", "PHE");
    ("SNC", "CYS"); ("SNN", "ASP"); ("SOC", "CYS"); ("SOY", "SER");
    ("SUI", "ALA"); ("SUN", "SER"); ("SVA", "SER"); ("SVV", "SER");
    ("SVX", "SER"); ("SVY", "SER"); ("SVZ", "SER"); ("SXE", "SER");
    ("TBG", "GLY"); ("TBM", "THR"); ("TCQ", "TYR"); ("TEE", "CYS");
    ("TH5", "THR"); ("THC", "THR"); ("THR", "THR"); ("TIH", "ALA");
    ("TMD", "THR"); ("TNB", "CYS"); ("TOX", "TRP"); ("TPL", "TRP");
    ("TPO", "THR"); ("TPQ", "ALA"); ("TQQ", "TRP"); ("TRF", "TRP");
    ("TRN", "TRP"); ("TRO", "TRP"); ("TRP", "TRP"); ("TRQ", "TRP");
    ("TRW", "TRP"); ("TRX", "TRP"); ("TTQ", "TRP"); ("TTS", "TYR");
    ("TY2", "TYR"); ("TY3", "TYR"); ("TYB", "TYR"); ("TYC", "TYR");
    ("TYI", "TYR"); ("TYN", "TYR"); ("TYO", "TYR"); ("TYQ", "TYR");
    ("TYR", "TYR"); ("TYS", "TYR"); ("TYT", "TYR"); ("TYX", "CYS");
    ("TYY", "TYR"); ("TYZ", "ARG"); ("UMA", "ALA"); ("VAD", "VAL");
    ("VAF", "VAL"); ("VAL", "VAL"); ("VDL", "VAL"); ("VLL", "VAL");
    ("HSD", "HIS"); ("VME", "VAL"); ("X9Q", "ALA"); ("XX1", "LYS");
    ("XXY", "ALA"); ("XYG", "ALA"); ("YCM", "CYS"); ("YOF", "TYR")
  ]%string.

(** [d.keys()] and [d.values()]. *)
Definition keys {A : Type} (d : list (string * A)) : list string := map fst d.
Definition values {A : Type} (d : list (string * A)) : list A := map snd d.

(** [x in l] for a list of strings. *)
Definition member (x : string) (l : list string) : bool :=
  existsb (String.eqb x) l.

(** [str.upper] on ASCII text: the letters [a] to [z] are raised. *)
Definition upper_ascii (c : Ascii.ascii) : Ascii.ascii :=
  let n := Ascii.nat_of_ascii c in
  if ((97 <=? n) && (n <=? 122))%nat then Ascii.ascii_of_nat (n - 32) else c.

Fixpoint upper (s : string) : string :=
  match s with
  | EmptyString => EmptyString
  | String c s' => String (upper_ascii c) (upper s')
  end.

(** Converts a short amino-acid name to the long one. *)
Definition aa_to_long (seq : string) : outcome string :=
  let s := upper seq in
  match lookup s AA_NAMES with
  | Some full => Return full
  | None => Fail (InvalidAAName seq 1)
  end.

(** The [for short, full in items] loop of [aa_to_short]: the first key
    whose value is [s]. *)
Fixpoint first_key_of (s : string) (items : list (string * string)) : option string :=
  match items with
  | [] => None
  | (short, full) :: items' =>
      if String.eqb full s then Some short else first_key_of s items'
  end.

(** [aa_to_short] when the dictionary yields its items in the order
    [items]. *)
Definition aa_to_short_in (items : list (string * string)) (seq : string)
  : outcome string :=
  let s := upper seq in
  match first_key_of s items with
  | Some short => Return short
  | None => Fail (InvalidAAName seq 3)
  end.

(** Converts a long amino-acid name to the short one. *)
Definition aa_to_short (seq : string) : outcome string :=
  aa_to_short_in AA_NAMES seq.

(** The double quote, and [s] between two of them. *)
Definition dquote : string := String (Ascii.ascii_of_nat 34) EmptyString.
Definition quoted (s : string) : string := (dquote ++ s ++ dquote)%string.

Definition non_standard_message (residue : string) : string :=
  ("The input peptide sequence contains a non-standard residue " ++ quoted residue
   ++ " that is currently not supported.The simulation cannot be performed.")%string.

(** The [for residue in sequence] loop of [check_peptide_sequence]. *)
Fixpoint check_peptide_sequence (sequence : string) : outcome bool :=
  match sequence with
  | EmptyString => Return true
  | String c sequence' =>
      let residue := String c EmptyString in
      if member residue (keys AA_NAMES) then check_peptide_sequence sequence'
      else Fail (Builtin (Exception_ (non_standard_message residue)))
  end.

Definition replaced_message (residue modified : string) : string :=
  ("In the current version residue " ++ quoted residue ++ " is not supported."
   ++ quoted residue ++ " was replaced with " ++ quoted modified
   ++ " to perform the simulation.")%string.

Definition unknown_message (residue : string) : string :=
  ("The PDB file contains unknown residue " ++ quoted residue)%string.

(** [fix_residue] returns its value together with the [UserWarning]
    messages it has issued. *)
Definition fix_residue (residue : string) : outcome (string * list string) :=
  if member residue (values AA_NAMES) then Return (residue, [])
  else if member residue (keys AA_SUB_NAMES) then
    match lookup residue AA_SUB_NAMES with
    | Some modified => Return (modified, [replaced_message residue modified])
    | None => Fail (Builtin (KeyError residue))
    end
  else Fail (Builtin (Exception_ (unknown_message residue))).

(** *** [pep2pep1] *)

Fixpoint prefixb (p l : list Ascii.ascii) : bool :=
  match p, l with
  | [], _ => true
  | _ :: _, [] => false
  | a :: p', b :: l' => Ascii.eqb a b && prefixb p' l'
  end.

Definition ends_with (suffix s : string) : bool :=
  prefixb (rev (list_ascii_of_string suffix)) (rev (list_ascii_of_string s)).

Definition newline : string := String (Ascii.ascii_of_nat 10) EmptyString.

(** [re.search('PEP$', _id)]: the dollar matches at the end of the string
    and before a newline that ends it. *)
Definition search_PEP_at_end (_id : string) : bool :=
  ends_with "PEP" _id || ends_with ("PEP" ++ newline) _id.

Definition pep2pep1 (_id : string) : string :=
  if search_PEP_at_end _id then (_id ++ "1")%string else _id.

End Residues.

(** ** Rebuilding a trajectory *)

Module Trajectory.

Import Np SCModeler.

(** A list comprehension whose element expression may raise. *)
Fixpoint comprehension {A B : Type} (f : A -> result B) (l : list A)
  : result (list B) :=
  match l with
  | [] => Ok []
  | a :: l' =>
      b <- f a ;;
      bs <- comprehension f l' ;;
      Ok (b :: bs)
  end.

(** *** [np.array] of a list of arrays

    numpy makes one array of a list of arrays that all have the same shape.
    A list of arrays of different shapes is refused with [ValueError] (by
    numpy 1.24 and later; older releases refuse some such lists and make an
    array of objects of the others).  The properties below do not depend on
    what happens to such a list. *)

Fixpoint same_shape (a b : list nat) : bool :=
  match a, b with
  | [], [] => true
  | m :: a', n :: b' => (m =? n)%nat && same_shape a' b'
  | _, _ => false
  end.

Definition one_shape (shapes : list (list nat)) : bool :=
  match shapes with
  | [] => true
  | s :: shapes' => forallb (same_shape s) shapes'
  end.

Definition np_array {A : Type} (shape : A -> list nat) (l : list A) : result (list A) :=
  if one_shape (map shape l) then Ok l else Raise ValueError.

(** The shape of the array that [rebuild_one] returns for a chain, and of
    the array made of the chains of a frame; [np.array([])] has the shape
    [(0,)]. *)
Definition chain_shape (chain : list V3) : list nat := [List.length chain; 3%nat].

Definition frame_shape (frame : list (list V3)) : list nat :=
  match frame with
  | [] => [0%nat]
  | chain :: _ => List.length frame :: chain_shape chain
  end.

(** A trajectory is a list of frames, a frame a list of chains. *)
Definition _calculate_traj (nms : list string) (traj : list (list (list V3)))
  (sc : bool) : result (list (list (list V3))) :=
  frames <- comprehension
              (fun i =>
                 chains <- comprehension (fun j => rebuild_one nms j sc) i ;;
                 np_array chain_shape chains)
              traj ;;
  np_array frame_shape frames.

Definition calculate_cb_traj (nms : list string) (traj : list (list (list V3)))
  : result (list (list (list V3))) :=
  _calculate_traj nms traj false.

Definition calculate_sc_traj (nms : list string) (traj : list (list (list V3)))
  : result (list (list (list V3))) :=
  _calculate_traj nms traj true.

End Trajectory.

(** ** Predicates of the statements below *)

(** A name with an entry in [SIDECNT], as a test. *)
Definition has_template (name : string) : bool :=
  match lookup name SIDECNT with Some _ => true | None => false end.

(** A value as [rmsd] reports it: zero, or a number above [_TINY]. *)
Definition reported (x : float) : Prop := x = 0 \/ (Align._TINY <? x) = true.

(** ** [smart_flatten] *)

Module Flatten.

Import Utils.

(** The number of occurrences of a character. *)
Fixpoint count_char (sep : Ascii.ascii) (s : string) : nat :=
  match s with
  | EmptyString => 0
  | String c s' => (if Ascii.eqb c sep then 1 else 0) + count_char sep s'
  end.

(** [sep in s] for a one-character [sep]. *)
Definition contains_char (sep : Ascii.ascii) (s : string) : bool :=
  negb (count_char sep s =? 0)%nat.

(** [s.split(sep)] for a one-character [sep]. *)
Fixpoint split_on (sep : Ascii.ascii) (s : string) : list string :=
  match s with
  | EmptyString => [EmptyString]
  | String c s' =>
      if Ascii.eqb c sep then EmptyString :: split_on sep s'
      else
        match split_on sep s' with
        | [] => [String c EmptyString]
        | field :: fields => String c field :: fields
        end
  end.

Definition dash : Ascii.ascii := Ascii.ascii_of_nat 45.

(** ['%i' % n]. *)
Definition format_i (n : Z) : string := NilZero.string_of_int (Z.to_int n).

Definition left_greater_message (beg end_ : Z) : string :=
  ("The left index(" ++ format_i beg ++ ") is greater than the right("
   ++ format_i end_ ++ ")")%string.

Section WithInt.

(** Python's [int] on a string: its value, or the exception it raises. *)
Variable int : string -> outcome Z.

(** What one item of the list adds to [fl].  With more or fewer than two
    fields the message of the exception is to be built as
    ['Invalid range syntax: ' + l], a string plus the list [l], and that
    addition raises [TypeError]. *)
Definition flatten_item (i : string) : outcome (list Z) :=
  if contains_char dash i then
    let j := split_on dash i in
    if negb (List.length j =? 2)%nat then Fail TypeError
    else
      match int (nth 0 j EmptyString) with
      | Fail e => Fail e
      | Return beg =>
          match int (nth 1 j EmptyString) with
          | Fail e => Fail e
          | Return end_ =>
              if (end_ <? beg)%Z
              then Fail (Builtin (Exception_ (left_greater_message beg end_)))
              else Return (py_range beg (end_ + 1))
          end
      end
  else
    match int i with
    | Fail e => Fail e
    | Return n => Return [n]
    end.

(** The [for i in l] loop, [fl] being the list built so far. *)
Fixpoint flatten_loop (l : list string) (fl : list Z) : outcome (list Z) :=
  match l with
  | [] => Return fl
  | i :: l' =>
      match flatten_item i with
      | Fail e => Fail e
      | Return ks => flatten_loop l' (fl ++ ks)
      end
  end.

Definition smart_flatten (l : list string) : outcome (list Z) :=
  flatten_loop l [].

End WithInt.

(** [int] on a string of decimal digits; the examples give it no other
    string. *)
Definition digit_value (c : Ascii.ascii) : option Z :=
  let n := Ascii.nat_of_ascii c in
  if ((48 <=? n) && (n <=? 57))%nat then Some (Z.of_nat (n - 48)) else None.

Fixpoint digits_value (s : string) (acc : Z) : option Z :=
  match s with
  | EmptyString => Some acc
  | String c s' =>
      match digit_value c with
      | Some d => digits_value s' (10 * acc + d)%Z
      | None => None
      end
  end.

Definition int_of_digits (s : string) : outcome Z :=
  match s with
  | EmptyString => Fail (Builtin ValueError)
  | _ =>
      match digits_value s 0 with
      | Some n => Return n
      | None => Fail (Builtin ValueError)
      end
  end.

End Flatten.

(** * Properties *)

(** ** Not-a-number absorbs every operation *)

Module FloatFacts.

Lemma Prim2SF_nan : Prim2SF nan = S754_nan.
Proof. reflexivity. Qed.

Ltac nan_case x :=
  apply Prim2SF_inj;
  first [ rewrite add_spec | rewrite sub_spec | rewrite mul_spec | rewrite div_spec ];
  rewrite Prim2SF_nan; destruct (Prim2SF x); reflexivity.

Lemma add_nan_l x : nan + x = nan. Proof. nan_case x. Qed.
Lemma add_nan_r x : x + nan = nan. Proof. nan_case x. Qed.
Lemma sub_nan_l x : nan - x = nan. Proof. nan_case x. Qed.
Lemma sub_nan_r x : x - nan = nan. Proof. nan_case x. Qed.
Lemma mul_nan_l x : nan * x = nan. Proof. nan_case x. Qed.
Lemma mul_nan_r x : x * nan = nan. Proof. nan_case x. Qed.
Lemma div_nan_l x : nan / x = nan. Proof. nan_case x. Qed.
Lemma div_nan_r x : x / nan = nan. Proof. nan_case x. Qed.
Lemma sqrt_nan : sqrt nan = nan. Proof. reflexivity. Qed.

End FloatFacts.

Create Rewrite HintDb nan_db.

#[export] Hint Rewrite FloatFacts.add_nan_l FloatFacts.add_nan_r
  FloatFacts.sub_nan_l FloatFacts.sub_nan_r
  FloatFacts.mul_nan_l FloatFacts.mul_nan_r
  FloatFacts.div_nan_l FloatFacts.div_nan_r FloatFacts.sqrt_nan : nan_db.

(** ** The local frame and the rotation matrix *)

Module FrameFacts.

Import Np SCModeler.

Lemma dot_nan3_r w : dot w nan3 = nan.
Proof. destruct w as [[w0 w1] w2]; unfold dot, nan3; now autorewrite with nan_db. Qed.

Lemma cross_nan3_r w : cross w nan3 = nan3.
Proof. destruct w as [[w0 w1] w2]; unfold cross, nan3; now autorewrite with nan_db. Qed.

Lemma norm_nan3 : norm nan3 = nan.
Proof. reflexivity. Qed.

Lemma trig_nan3 w axis : _calc_trig_fnc w nan3 axis = (nan, nan).
Proof.
  unfold _calc_trig_fnc.
  rewrite dot_nan3_r, cross_nan3_r, norm_nan3.
  now autorewrite with nan_db.
Qed.

Lemma rot_of_trig_nan ph th :
  exists row2, rot_of_trig ph (nan, nan) th = (nan3, nan3, row2).
Proof.
  destruct ph as [cph sph], th as [cth sth]; unfold rot_of_trig, nan3.
  autorewrite with nan_db. eexists; reflexivity.
Qed.

Lemma vecmat_nan_rows v row2 : vecmat v (nan3, nan3, row2) = nan3.
Proof.
  destruct v as [[v0 v1] v2], row2 as [[a b] c]; unfold vecmat, nan3.
  now autorewrite with nan_db.
Qed.

Lemma vadd_nan3_l c : vadd nan3 c = nan3.
Proof. destruct c as [[a b] c]; unfold vadd, nan3; now autorewrite with nan_db. Qed.

(** A zero span gives a frame whose x and y axes are not numbers; nothing
    is raised. *)
Lemma frame_of_zero_span c1 c2 c3 :
  zero_vector (vsub c3 c1) ->
  exists z, _mk_local_system c1 c2 c3 = (nan3, nan3, z, 0).
Proof.
  unfold _mk_local_system.
  destruct (vsub c3 c1) as [[d0 d1] d2].
  intros (H0 & H1 & H2).
  eexists.
  assert (Hn : norm (d0, d1, d2) = 0)
    by (destruct H0, H1, H2; subst; reflexivity).
  assert (Hx : vdiv (d0, d1, d2) 0 = nan3)
    by (destruct H0, H1, H2; subst; reflexivity).
  rewrite Hn, Hx, cross_nan3_r. reflexivity.
Qed.

Lemma rot_mtx_of_zero_span c1 c2 c3 :
  zero_vector (vsub c3 c1) ->
  exists row2, _calc_rot_mtx c1 c2 c3 = ((nan3, nan3, row2), 0).
Proof.
  intros H. destruct (frame_of_zero_span c1 c2 c3 H) as [z Hz].
  unfold _calc_rot_mtx. rewrite Hz.
  rewrite trig_nan3.
  destruct (rot_of_trig_nan (_calc_trig_fnc (1, 0, 0) (nodes_line_or_x nan3 z) (0, 0, 1))
              (_calc_trig_fnc (0, 0, 1) z (nodes_line_or_x nan3 z))) as [row2 Hr].
  exists row2. now rewrite Hr.
Qed.

(** With [all='raise'] a vanishing cross product makes [_calc_nodes_line]
    raise: if nothing before does, the division of zero by zero. *)
Lemma nodes_line_raises a b :
  zero_vector (cross a b) -> _calc_nodes_line true a b = None.
Proof.
  unfold _calc_nodes_line.
  destruct (cross a b) as [[w0 w1] w2].
  intros (H0 & H1 & H2).
  destruct (cross_fault a b); [reflexivity|].
  destruct H0, H1, H2; subst; reflexivity.
Qed.

(** Without [all='raise'] it never raises. *)
Lemma nodes_line_quiet a b :
  _calc_nodes_line false a b = Some (vdiv (cross a b) (norm (cross a b))).
Proof. reflexivity. Qed.

Lemma fallback_to_x x z :
  zero_vector (cross (0, 0, 1) z) -> nodes_line_or_x x z = x.
Proof. intros H. unfold nodes_line_or_x. now rewrite nodes_line_raises. Qed.

(** When the local z axis is parallel to the world z axis the matrix is
    assembled with the local x axis as the line of nodes. *)
Lemma rot_mtx_fallback c1 c2 c3 x y z rdnorm :
  _mk_local_system c1 c2 c3 = (x, y, z, rdnorm) ->
  zero_vector (cross (0, 0, 1) z) ->
  _calc_rot_mtx c1 c2 c3
  = (rot_of_trig (_calc_trig_fnc (1, 0, 0) x (0, 0, 1))
       (_calc_trig_fnc x x z)
       (_calc_trig_fnc (0, 0, 1) z x), rdnorm).
Proof.
  intros Hf Hz. unfold _calc_rot_mtx. rewrite Hf.
  now rewrite (fallback_to_x x z Hz).
Qed.

(** The two clamped ranges of the scatter coefficient. *)
Lemma scatter_coef_short dist :
  (dist <? 5.3) = true -> _calc_scatter_coef dist = 1.
Proof. intros H. unfold _calc_scatter_coef. now rewrite H. Qed.

(** Order of binary64 numbers: nothing lies above one positive number and
    below a smaller one of the same exponent. *)
Lemma SFltb_between ma mb e0 d :
  (mb < ma)%positive ->
  SFltb (S754_finite false ma e0) d = true ->
  SFltb d (S754_finite false mb e0) = false.
Proof.
  intros Hm. unfold SFltb.
  destruct d as [s|s| |s m e]; cbn [SFcompare]; try discriminate; try reflexivity.
  - destruct s; [discriminate|reflexivity].
  - destruct s; [discriminate|].
    destruct (Z.compare_spec e0 e), (Z.compare_spec e e0);
      try discriminate; try reflexivity; try lia; subst.
    rewrite !Pos.compare_cont_spec. cbn [Pos.switch_Eq].
    destruct (Pos.compare_spec ma m), (Pos.compare_spec m mb);
      try discriminate; try reflexivity; lia.
Qed.

Lemma Prim2SF_5_3 : Prim2SF 5.3 = S754_finite false 5967269506265907 (-50).
Proof. vm_compute. reflexivity. Qed.

Lemma Prim2SF_6_4 : Prim2SF 6.4 = S754_finite false 7205759403792794 (-50).
Proof. vm_compute. reflexivity. Qed.

Lemma scatter_coef_long dist :
  (6.4 <? dist) = true -> _calc_scatter_coef dist = 0.
Proof.
  intros H. unfold _calc_scatter_coef.
  assert (Hs : (dist <? 5.3) = false).
  { rewrite ltb_spec in H |- *. rewrite Prim2SF_6_4 in H. rewrite Prim2SF_5_3.
    eapply SFltb_between; [|exact H]. reflexivity. }
  now rewrite Hs, H.
Qed.

(** Between the knots the interpolation formula is evaluated as written. *)
Lemma scatter_coef_middle dist :
  (dist <? 5.3) = false -> (6.4 <? dist) = false ->
  _calc_scatter_coef dist = (dist - 5.3) * (- (1 / 1.1)) + 1.
Proof. intros H1 H2. unfold _calc_scatter_coef. now rewrite H1, H2. Qed.

End FrameFacts.

(** ** The rebuilding loop *)

Module RebuildFacts.

Import Np SCModeler.

Lemma getitem_ok {A} (l : list A) i :
  (i < List.length l)%nat -> exists a, getitem l i = Ok a.
Proof.
  intros H. unfold getitem.
  destruct (nth_error l i) eqn:E; [eauto|].
  apply nth_error_None in E. lia.
Qed.

Lemma getitem_Ok {A} (l : list A) i a :
  getitem l i = Ok a <-> nth_error l i = Some a.
Proof.
  unfold getitem. destruct (nth_error l i); split; intros H; inversion H; reflexivity.
Qed.

Lemma getitem_neg_ok {A} (l : list A) k :
  (1 <= k <= List.length l)%nat -> exists a, getitem_neg l k = Ok a.
Proof.
  intros H. unfold getitem_neg.
  destruct (Nat.leb_spec k (List.length l)); [|lia].
  apply getitem_ok. lia.
Qed.

Lemma padded_ok vec :
  (3 <= List.length vec)%nat ->
  exists pv, padded vec = Ok pv /\ List.length pv = (List.length vec + 2)%nat.
Proof.
  intros H. unfold padded.
  destruct (getitem_ok vec 0) as [v0 ->]; [lia|].
  destruct (getitem_ok vec 2) as [v2 ->]; [lia|].
  destruct (getitem_ok vec 1) as [v1 ->]; [lia|].
  cbn [bind].
  set (vec' := vsub v0 (vsub v2 v1) :: vec).
  assert (Hl : List.length vec' = S (List.length vec)) by reflexivity.
  destruct (getitem_neg_ok vec' 1) as [l1 ->]; [lia|].
  destruct (getitem_neg_ok vec' 2) as [l2 ->]; [lia|].
  destruct (getitem_neg_ok vec' 3) as [l3 ->]; [lia|].
  cbn [bind]. eexists; split; [reflexivity|].
  rewrite length_app, Hl. cbn. lia.
Qed.

(** Fewer than three points: the subscript [vec[2]] (or [vec[0]]) is out
    of range. *)
Lemma padded_short vec :
  (List.length vec < 3)%nat -> padded vec = Raise IndexError.
Proof.
  destruct vec as [|a [|b [|c rest]]]; cbn [List.length]; intros H;
    try reflexivity; lia.
Qed.

Lemma rebuild_one_short nms vec sc :
  (List.length vec < 3)%nat -> rebuild_one nms vec sc = Raise IndexError.
Proof. intros H. unfold rebuild_one. now rewrite padded_short. Qed.

Lemma rebuild_residue_ok nms sc pv i :
  (i + 2 < List.length pv)%nat ->
  (sc = true -> exists name, nth_error nms i = Some name /\ known name) ->
  exists p, rebuild_residue nms sc pv i = Ok p.
Proof.
  intros Hi Hn. unfold rebuild_residue.
  destruct (getitem_ok pv i) as [c1 ->]; [lia|].
  destruct (getitem_ok pv (i + 1)) as [c2 ->]; [lia|].
  destruct (getitem_ok pv (i + 2)) as [c3 ->]; [lia|].
  cbn [bind].
  destruct (_calc_rot_mtx c1 c2 c3) as [rot casdist].
  destruct sc.
  - destruct (Hn eq_refl) as (name & Hnth & Hk).
    apply getitem_Ok in Hnth. rewrite Hnth. cbn [bind].
    unfold subscript. unfold known in Hk.
    destruct (lookup name SIDECNT) as [[compact scattered]|]; [|congruence].
    cbn [bind]. eauto.
  - cbn. eauto.
Qed.

Lemma rebuild_loop_ok nms sc pv idx :
  (forall i, In i idx -> exists p, rebuild_residue nms sc pv i = Ok p) ->
  exists out, rebuild_loop nms sc pv idx = Ok out
    /\ List.length out = List.length idx
    /\ forall j i, nth_error idx j = Some i ->
         exists p, nth_error out j = Some p /\ rebuild_residue nms sc pv i = Ok p.
Proof.
  induction idx as [|i idx IH]; intros H.
  - exists []. repeat split. intros [|j] i Hj; discriminate.
  - destruct (H i (or_introl eq_refl)) as [p Hp].
    destruct IH as (out & Hout & Hlen & Hnth); [intros k Hk; apply H; now right|].
    exists (p :: out). cbn [rebuild_loop]. rewrite Hp, Hout. cbn [bind].
    repeat split; [cbn; lia|].
    intros [|j] k Hj; cbn in Hj |- *.
    + inversion Hj; subst. eauto.
    + now apply Hnth.
Qed.

Lemma rebuild_one_ok nms vec sc :
  (3 <= List.length vec)%nat ->
  (sc = true -> (List.length vec <= List.length nms)%nat /\ Forall known nms) ->
  exists pv out, padded vec = Ok pv /\ rebuild_one nms vec sc = Ok out
    /\ List.length out = List.length vec
    /\ forall i, (i < List.length vec)%nat ->
         exists p, nth_error out i = Some p /\ rebuild_residue nms sc pv i = Ok p.
Proof.
  intros Hlen Hnms.
  destruct (padded_ok vec Hlen) as (pv & Hpv & Hpl).
  unfold rebuild_one. rewrite Hpv. cbn [bind].
  replace (List.length pv - 2)%nat with (List.length vec) by lia.
  destruct (rebuild_loop_ok nms sc pv (seq 0 (List.length vec))) as (out & Hout & Hol & Hnth).
  { intros i Hi. apply in_seq in Hi. apply rebuild_residue_ok; [lia|].
    intros Hsc. destruct (Hnms Hsc) as [Hl Hk].
    destruct (nth_error nms i) as [name|] eqn:E.
    - exists name. split; [reflexivity|].
      rewrite Forall_forall in Hk. eapply Hk, nth_error_In, E.
    - apply nth_error_None in E. lia. }
  exists pv, out. repeat split; try assumption.
  - now rewrite Hol, length_seq.
  - intros i Hi. apply Hnth. rewrite nth_error_seq.
    destruct (Nat.ltb_spec i (List.length vec)); [reflexivity|lia].
Qed.

(** The residue whose triplet has a zero span is rebuilt as not-a-number. *)
Lemma rebuild_residue_zero_span nms pv i c1 c2 c3 :
  nth_error pv i = Some c1 ->
  nth_error pv (i + 1) = Some c2 ->
  nth_error pv (i + 2) = Some c3 ->
  zero_vector (vsub c3 c1) ->
  rebuild_residue nms false pv i = Ok nan3.
Proof.
  intros H1 H2 H3 Hz. unfold rebuild_residue.
  apply getitem_Ok in H1, H2, H3. rewrite H1, H2, H3. cbn [bind].
  destruct (FrameFacts.rot_mtx_of_zero_span c1 c2 c3 Hz) as [row2 ->].
  cbn [bind subscript]. 
  change (subscript SIDECNT "ALA")
    with (Ok ((0.253, -1.133, 0.985), (0.119, -0.763, 1.312)) : result (V3 * V3)).
  cbn [bind].
  now rewrite FrameFacts.vecmat_nan_rows, FrameFacts.vadd_nan3_l.
Qed.

End RebuildFacts.

(** ** The loop of [dynamic_kabsch] *)

Module LoopFacts.

Import Np Align.

Lemma bind_Raise {A B} (x : result A) (k : A -> result B) e :
  bind x k = Raise e ->
  x = Raise e \/ exists a, x = Ok a /\ k a = Raise e.
Proof. destruct x as [a|e']; cbn; intros H; [right; eauto|left; congruence]. Qed.

Lemma zip_with_error {A B C} (f : A -> B -> C) a b e :
  zip_with f a b = Raise e -> numpy_error e.
Proof.
  unfold zip_with. destruct (_ =? _)%nat; intros H; inversion H. now left.
Qed.

Lemma np_average_error a w e : np_average a (Some w) = Raise e -> numpy_error e.
Proof.
  unfold np_average. intros H.
  apply bind_Raise in H as [H|(aw & _ & H)].
  - eapply zip_with_error, H.
  - destruct (fsum w =? 0); inversion H. right. now left.
Qed.

Lemma np_average1_error a w e : np_average1 a (Some w) = Raise e -> numpy_error e.
Proof.
  unfold np_average1. intros H.
  apply bind_Raise in H as [H|(aw & _ & H)].
  - eapply zip_with_error, H.
  - destruct (fsum w =? 0); inversion H. right. now left.
Qed.

Lemma dot_T_error t q e : dot_T t q = Raise e -> numpy_error e.
Proof.
  unfold dot_T. intros H.
  apply bind_Raise in H as [H|(o & _ & H)]; [eapply zip_with_error, H|inversion H].
Qed.

Section Trace.

Variable E : Externals.
Variables target query : list V3.

Lemma kabsch_concentric_error t q w e :
  kabsch E t q (Some w) true = Raise e -> numpy_error e.
Proof.
  unfold kabsch. cbn [bind]. intros H.
  apply bind_Raise in H as [H|(c & _ & H)].
  - unfold covariance in H. destruct (truthy (Some w)).
    + apply bind_Raise in H as [H|(wt & _ & H)];
        [eapply zip_with_error, H|eapply dot_T_error, H].
    + eapply dot_T_error, H.
  - destruct (np_linalg_svd E c) as [[[v s] w']|]; inversion H. right. now right.
Qed.

Lemma rmsd_error d w e : rmsd d None (Some w) = Raise e -> numpy_error e.
Proof.
  unfold rmsd, rmsd_raw. cbn [bind]. intros H.
  apply bind_Raise in H as [H|(x & _ & H)]; [|inversion H].
  apply bind_Raise in H as [H|(x & _ & H)]; [|inversion H].
  eapply np_average1_error, H.
Qed.

Lemma loop_body_error w e :
  loop_body E target query w = Raise e -> numpy_error e.
Proof.
  unfold loop_body. intros H.
  apply bind_Raise in H as [H|(tc & _ & H)]; [eapply np_average_error, H|].
  apply bind_Raise in H as [H|(qc & _ & H)]; [eapply np_average_error, H|].
  apply bind_Raise in H as [H|(rot & _ & H)]; [eapply kabsch_concentric_error, H|].
  apply bind_Raise in H as [H|(d & _ & H)]; [eapply zip_with_error, H|].
  apply bind_Raise in H as [H|(c & _ & H)]; [eapply rmsd_error, H|inversion H].
Qed.

Lemma loop_converges left rmsd w p :
  loop_body E target query w = Ok p -> converged rmsd p = true ->
  loop E (S left) target query rmsd w = Ok (rmsd, r p, t_com p, q_com p).
Proof. intros Hp Hc. cbn [loop]. rewrite Hp. cbn [bind]. now rewrite Hc. Qed.

Lemma loop_continues left rmsd w p :
  loop_body E target query w = Ok p -> converged rmsd p = false ->
  loop E (S left) target query rmsd w
  = loop E left target query (_current p) (reweight E p).
Proof. intros Hp Hc. cbn [loop]. rewrite Hp. cbn [bind]. now rewrite Hc. Qed.

Lemma loop_raises left rmsd w e :
  loop_body E target query w = Raise e ->
  loop E (S left) target query rmsd w = Raise e.
Proof. intros Hp. cbn [loop]. now rewrite Hp. Qed.

(** Once pass [k] is reached, the call is what the remaining passes make
    of it. *)
Lemma loop_of_reaches k rmsd w :
  reaches E target query k rmsd w -> (k <= _MAX_ITER)%nat ->
  dynamic_kabsch E target query = loop E (_MAX_ITER - k) target query rmsd w.
Proof.
  induction 1 as [|k rmsd w p Hr IH Hp Hc]; intros Hk.
  - reflexivity.
  - rewrite IH by lia.
    replace (_MAX_ITER - k)%nat with (S (_MAX_ITER - S k)) by lia.
    now apply loop_continues.
Qed.

Lemma not_converged_only_at_end left : forall k rmsd w,
  reaches E target query k rmsd w ->
  loop E left target query rmsd w = Raise not_converged ->
  exists rmsd' w', reaches E target query (k + left) rmsd' w'.
Proof.
  induction left as [|left IH]; intros k rmsd w Hr H.
  - rewrite Nat.add_0_r. eauto.
  - cbn [loop] in H.
    destruct (loop_body E target query w) as [p|e] eqn:Hp; cbn [bind] in H.
    + destruct (converged rmsd p) eqn:Hc; [discriminate|].
      replace (k + S left)%nat with (S k + left)%nat by lia.
      eapply IH; [|exact H]. econstructor; eassumption.
    + inversion H; subst.
      apply loop_body_error in Hp as [Hp|[Hp|Hp]]; discriminate.
Qed.

Lemma reaches_0_inv rmsd w :
  reaches E target query 0 rmsd w ->
  rmsd = _LARGE /\ w = repeat 1 (List.length target).
Proof. intros H. inversion H. now split. Qed.

Lemma reaches_S_inv k rmsd w :
  reaches E target query (S k) rmsd w ->
  exists rmsd0 w0 p,
    reaches E target query k rmsd0 w0
    /\ loop_body E target query w0 = Ok p
    /\ converged rmsd0 p = false
    /\ rmsd = _current p /\ w = reweight E p.
Proof. intros H. inversion H; subst. eauto 10. Qed.

End Trace.

End LoopFacts.

(** ** The order of the additions in a sum *)

Module SumFacts.
Import Np Align.

Lemma cut_lengths n :
  (PW_BLOCKSIZE < n)%nat ->
  (64 <= n / 2 - (n / 2) mod 8 <= n - 64)%nat.
Proof.
  unfold PW_BLOCKSIZE. intros H.
  assert (H2 : (n = 2 * (n / 2) + n mod 2)%nat) by apply Nat.div_mod_eq.
  assert (Hm2 : (n mod 2 < 2)%nat) by (apply Nat.mod_upper_bound; lia).
  assert (H8 : (n / 2 = 8 * (n / 2 / 8) + (n / 2) mod 8)%nat) by apply Nat.div_mod_eq.
  assert (Hm8 : ((n / 2) mod 8 < 8)%nat) by (apply Nat.mod_upper_bound; lia).
  lia.
Qed.

(** The bound on the number of cuts is never met: any bound that leaves
    64 items for each cut above the block size gives the same sum. *)
Lemma pairwise_sum_depth d : forall d' a,
  (List.length a <= PW_BLOCKSIZE + 64 * d)%nat ->
  (List.length a <= PW_BLOCKSIZE + 64 * d')%nat ->
  pairwise_sum d a = pairwise_sum d' a.
Proof.
  induction d as [|d IH]; intros d' a Hd Hd'.
  - destruct d' as [|d']; [reflexivity|]. cbn [pairwise_sum].
    replace (List.length a <=? PW_BLOCKSIZE)%nat with true; [reflexivity|].
    symmetry. apply Nat.leb_le. lia.
  - cbn [pairwise_sum].
    destruct (List.length a <=? PW_BLOCKSIZE)%nat eqn:Hn.
    + destruct d' as [|d']; [reflexivity|]. cbn [pairwise_sum]. now rewrite Hn.
    + apply Nat.leb_gt in Hn.
      destruct (cut_lengths (List.length a) Hn) as [Hlo Hhi].
      destruct d' as [|d']; [unfold PW_BLOCKSIZE in *; lia|].
      cbn [pairwise_sum].
      replace (List.length a <=? PW_BLOCKSIZE)%nat with false
        by (symmetry; apply Nat.leb_gt; exact Hn).
      f_equal; apply IH; rewrite ?length_firstn, ?length_skipn; lia.
Qed.

(** Fewer than eight items are added in index order. *)
Lemma fsum_short l :
  (List.length l < 8)%nat -> fsum l = 0 + fold_left add l 0.
Proof.
  intros H. unfold fsum.
  rewrite (pairwise_sum_depth _ 0 l) by (unfold PW_BLOCKSIZE; lia).
  cbn [pairwise_sum].
  do 8 (destruct l as [|? l]; [reflexivity|]). cbn in H. lia.
Qed.

Lemma add_to_zero x : x = neg_zero \/ neg_zero + x = 0 + x.
Proof.
  destruct (Prim2SF x) as [s|s| |s m e] eqn:Hx.
  - destruct s.
    + left. apply Prim2SF_inj. now rewrite Hx.
    + right. apply Prim2SF_inj. rewrite !add_spec, Hx. reflexivity.
  - right. apply Prim2SF_inj. rewrite !add_spec, Hx. reflexivity.
  - right. apply Prim2SF_inj. rewrite !add_spec, Hx. reflexivity.
  - right. apply Prim2SF_inj. rewrite !add_spec, Hx. reflexivity.
Qed.

(** Releases of numpy differ in the zero from which fewer than eight items
    are added up, zero or minus zero.  The sum is the same: it is added to
    the zero of the reduction. *)
Lemma fsum_from_minus_zero l :
  0 + fold_left add l neg_zero = 0 + fold_left add l 0.
Proof.
  assert (H : forall l a b,
             a = b \/ (a = neg_zero /\ b = 0) ->
             0 + fold_left add l a = 0 + fold_left add l b).
  { clear l. induction l as [|x l IH]; intros a b [->|[-> ->]]; cbn [fold_left].
    - reflexivity.
    - reflexivity.
    - reflexivity.
    - apply IH. destruct (add_to_zero x) as [->|H]; [right; split; reflexivity|now left]. }
  apply H. right. split; reflexivity.
Qed.

(** From eight items on the order of the additions is another, and so is
    the sum: nine items that add up to [1] in index order. *)
Lemma fsum_eight_accumulators :
  let u := 0x1p-53 in
  fold_left add [1; u; u; u; u; u; u; u; u] 0 = 1
  /\ fsum [1; u; u; u; u; u; u; u; u] = 0x1.0000000000004p+0.
Proof. split; vm_compute; reflexivity. Qed.

(** The order decides what [rmsd] returns at its threshold.  For 22 points
    of weight one, each displaced by [0.001], the pairwise sums give the
    value [0.001] and [rmsd] returns zero; the same terms added in index
    order give the next number above [0.001]. *)
Lemma rmsd_of_equal_displacements :
  rmsd (repeat (0, 0, 0) 22) (Some (repeat (0.001, 0, 0) 22)) (Some (repeat 1 22))
  = Ok 0
  /\ sqrt (fold_left add (map (fun d => sumsq d * 1) (repeat (0.001, 0, 0) 22)) 0
           / fold_left add (repeat 1 22) 0)
     = 0x1.0624dd2f1a9fdp-10
  /\ (_TINY <? 0x1.0624dd2f1a9fdp-10) = true.
Proof. repeat split; vm_compute; reflexivity. Qed.

End SumFacts.

(** ** The outcomes of [kabsch] *)

Module KabschFacts.
Import Np Align.








End KabschFacts.

(** * Statements of the specification, checked against the program *)

Import Np SCModeler Align Examples.

(** ** Side-chain modeller *)

(** C2: a triplet in the xy plane whose two bonds have different lengths.
    The three points span a plane, yet the oriented sine between the line
    of nodes and the local x axis comes out as [0] next to a cosine of
    [0.8] ([np.sign] of a zero projection), and the matrix returned by
    [_calc_rot_mtx] has determinant about [0.64]: it is not a rotation
    within [1e-9]. *)
Theorem rot_mtx_planar_triplet :
  valid_triplet (-5, -4, 0) (0, 0, 0) (1, 4, 0) = true
  /\ _mk_local_system (-5, -4, 0) (0, 0, 0) (1, 4, 0)
     = ((0.6, 0.8, 0), (0, -0, 0.8), (1, -0, -0), 10)
  /\ _calc_trig_fnc (0, 1, -0) (0.6, 0.8, 0) (1, -0, -0) = (0.8, 0)
  /\ _calc_rot_mtx (-5, -4, 0) (0, 0, 0) (1, 4, 0)
     = (((0, 0.8, 0), (-0, 0, 0.8), (1, -0, 0)), 10)
  /\ (det3 (fst (_calc_rot_mtx (-5, -4, 0) (0, 0, 0) (1, 4, 0))) <? 0.65) = true
  /\ is_rotation_within 1e-9 (fst (_calc_rot_mtx (-5, -4, 0) (0, 0, 0) (1, 4, 0))) = false.
Proof. repeat split; vm_compute; reflexivity. Qed.

(** C3 (amended): for every backbone of [n >= 3] points, with the generic
    residue type or with a residue name known to [SIDECNT] for every
    point, [rebuild_one] returns exactly [n] points. *)
Theorem rebuild_one_returns_n_points nms vec sc :
  (3 <= List.length vec)%nat ->
  (sc = true -> (List.length vec <= List.length nms)%nat /\ Forall known nms) ->
  exists out, rebuild_one nms vec sc = Ok out /\ List.length out = List.length vec.
Proof.
  intros Hlen Hnms.
  destruct (RebuildFacts.rebuild_one_ok nms vec sc Hlen Hnms) as (pv & out & _ & H & Hl & _).
  eauto.
Qed.

Lemma rebuild_one_returns_n_points_witness :
  exists out,
    rebuild_one ["GLY"; "ALA"; "SER"]%string [(0, 0, 0); (3.8, 0, 0); (5, 3, 1)] true = Ok out
    /\ List.length out = 3%nat.
Proof.
  apply (rebuild_one_returns_n_points ["GLY"; "ALA"; "SER"]%string
           [(0, 0, 0); (3.8, 0, 0); (5, 3, 1)] true).
  - apply le_n.
  - intros _. split; [apply le_n|].
    repeat constructor; discriminate.
Defined.

(** C3 as stated fails for one and for two points: [vec[2]] is out of
    range. *)
Lemma rebuild_one_short_backbone :
  rebuild_one ["ALA"]%string [(0, 0, 0)] true = Raise IndexError
  /\ rebuild_one ["ALA"; "GLY"]%string [(0, 0, 0); (3.8, 0, 0)] false = Raise IndexError.
Proof. split; reflexivity. Qed.

(** C4 (amended): a triplet whose ends coincide raises nothing.  The frame
    builder returns the span [0] and x and y axes that are not numbers, and
    [rebuild_one] returns its [n] points as usual, the point of that
    residue being not-a-number in every coordinate. *)
Theorem zero_span_is_not_reported nms vec pv i c1 c2 c3 :
  padded vec = Ok pv ->
  nth_error pv i = Some c1 ->
  nth_error pv (i + 1) = Some c2 ->
  nth_error pv (i + 2) = Some c3 ->
  zero_vector (vsub c3 c1) ->
  (exists z, _mk_local_system c1 c2 c3 = (nan3, nan3, z, 0))
  /\ exists out, rebuild_one nms vec false = Ok out
       /\ List.length out = List.length vec
       /\ nth_error out i = Some nan3.
Proof.
  intros Hpv H1 H2 H3 Hz.
  assert (Hlen : (3 <= List.length vec)%nat).
  { destruct (Nat.lt_ge_cases (List.length vec) 3) as [Hs|Hs]; [|exact Hs].
    rewrite (RebuildFacts.padded_short vec Hs) in Hpv. discriminate. }
  split.
  - now apply FrameFacts.frame_of_zero_span.
  - destruct (RebuildFacts.rebuild_one_ok nms vec false Hlen) as (pv' & out & Hpv' & H & Hl & Hn);
      [discriminate|].
    rewrite Hpv in Hpv'. inversion Hpv'; subst pv'.
    exists out. repeat split; try assumption.
    destruct (RebuildFacts.padded_ok vec Hlen) as (pv'' & Hpv'' & Hpl).
    rewrite Hpv in Hpv''. inversion Hpv''; subst pv''.
    assert (Hi : (i < List.length vec)%nat).
    { assert (i + 2 < List.length pv)%nat by (apply nth_error_Some; congruence). lia. }
    destruct (Hn i Hi) as (p & Hp & Hr).
    rewrite (RebuildFacts.rebuild_residue_zero_span nms pv i c1 c2 c3 H1 H2 H3 Hz) in Hr.
    now inversion Hr; subst.
Qed.

Lemma zero_span_is_not_reported_witness :
  (exists z, _mk_local_system (0, 0, 0) (1, 0, 0) (0, 0, 0) = (nan3, nan3, z, 0))
  /\ exists out, rebuild_one [] [(0, 0, 0); (1, 0, 0); (0, 0, 0)] false = Ok out
       /\ List.length out = 3%nat
       /\ nth_error out 1 = Some nan3.
Proof.
  apply (zero_span_is_not_reported [] [(0, 0, 0); (1, 0, 0); (0, 0, 0)]
           [(1, 0, 0); (0, 0, 0); (1, 0, 0); (0, 0, 0); (1, 0, 0)] 1
           (0, 0, 0) (1, 0, 0) (0, 0, 0)).
  - reflexivity.
  - reflexivity.
  - reflexivity.
  - reflexivity.
  - repeat split; left; reflexivity.
Defined.

(** C4 as stated fails: with coincident ends the frame builder returns
    not-a-number axes, and the backbone that goes out and back is rebuilt
    into three points that are not numbers, without any exception. *)
Lemma zero_span_goes_unnoticed :
  _mk_local_system (1, 0, 0) (0, 0, 0) (1, 0, 0) = (nan3, nan3, (-1, -0, -0), 0)
  /\ rebuild_one [] [(0, 0, 0); (1, 0, 0); (0, 0, 0)] false = Ok [nan3; nan3; nan3].
Proof. split; vm_compute; reflexivity. Qed.

(** C5: at the upper knot [6.4] the interpolation formula is the one
    evaluated, and in binary64 it gives [-2^-51] (about [-4.4e-16]), a
    negative number, where the claim has exactly [0.0]; just above the knot
    the coefficient is [0.0] again.  At the lower knot it gives [1.0]. *)
Theorem scatter_coef_at_upper_knot :
  _calc_scatter_coef 6.4 = (-0x1p-51)%float
  /\ (_calc_scatter_coef 6.4 <? 0) = true
  /\ _calc_scatter_coef (next_up 6.4) = 0
  /\ _calc_scatter_coef 5.3 = 1.
Proof. repeat split; vm_compute; reflexivity. Qed.

(** C9: a triplet in the xz plane whose bisector is the world z axis and
    whose two bonds have different lengths.  [_calc_nodes_line] raises and
    the local x axis is taken as the line of nodes, but the matrix returned
    has the rows [(0.6, 0, 0)], [(0, 0.6, 0)], [(0, 0, 1)]: it is not a
    rotation. *)
Theorem rot_mtx_fallback_triplet :
  valid_triplet (-3, 0, -5) (0, 0, 0) (3, 0, 3) = true
  /\ _mk_local_system (-3, 0, -5) (0, 0, 0) (3, 0, 3)
     = ((0.6, 0, 0.8), (-0, 0.6, 0), (-0, -0, 1), 10)
  /\ _calc_nodes_line true (0, 0, 1) (-0, -0, 1) = None
  /\ nodes_line_or_x (0.6, 0, 0.8) (-0, -0, 1) = (0.6, 0, 0.8)
  /\ _calc_trig_fnc (1, 0, 0) (0.6, 0, 0.8) (0, 0, 1) = (0.6, 0)
  /\ _calc_rot_mtx (-3, 0, -5) (0, 0, 0) (3, 0, 3)
     = (((0.6, 0, 0), (-0, 0.6, 0), (0, -0, 1)), 10)
  /\ is_rotation_within 1e-9 (fst (_calc_rot_mtx (-3, 0, -5) (0, 0, 0) (3, 0, 3))) = false.
Proof. repeat split; vm_compute; reflexivity. Qed.

(** ** Superposition *)

(** The first pass on two opposite target points at distance [a] and a
    query whose points coincide: the covariance matrix is zero, the
    rotation the identity, and the residuals are the target points. *)
Lemma first_pass_near_sentinel :
  loop_body externals (opposite 1000.0004) coincident [1; 1]
  = Ok {| t_com := zero3; q_com := zero3; r := identity3;
          _diff := [(-1000.0004, 0, 0); (1000.0004, 0, 0)];
          _current := 1000.0004 |}.
Proof. vm_compute. reflexivity. Qed.

Lemma first_pass_far :
  loop_body externals (opposite 2000) coincident [1; 1]
  = Ok {| t_com := zero3; q_com := zero3; r := identity3;
          _diff := [(-2000, 0, 0); (2000, 0, 0)];
          _current := 2000 |}.
Proof. vm_compute. reflexivity. Qed.

Lemma pass_with_zero_weights :
  loop_body externals (opposite 2000) coincident [0; 0] = Raise ZeroDivisionError.
Proof. vm_compute. reflexivity. Qed.

Lemma pass_overflowing :
  loop_body externals (opposite 1e154) coincident [1; 1]
  = Ok {| t_com := zero3; q_com := zero3; r := identity3;
          _diff := [(-1e154, 0, 0); (1e154, 0, 0)];
          _current := infinity |}.
Proof. vm_compute. reflexivity. Qed.

Lemma pass_identical :
  loop_body externals (opposite 1) (opposite 1) [1; 1]
  = Ok {| t_com := zero3; q_com := zero3; r := identity3;
          _diff := [(0, 0, 0); (0, 0, 0)];
          _current := 0 |}.
Proof. vm_compute. reflexivity. Qed.

(** When the first pass converges no other pass is ever started. *)
Lemma near_sentinel_only_first_pass k rmsd w :
  reaches externals (opposite 1000.0004) coincident k rmsd w -> k = 0%nat.
Proof.
  induction 1 as [|k rmsd w p Hr IH Hp Hc]; [reflexivity|].
  subst k. apply LoopFacts.reaches_0_inv in Hr as [-> ->].
  cbn [repeat List.length opposite] in Hp.
  change (loop_body externals (opposite 1000.0004) coincident [1; 1] = Ok p) in Hp.
  rewrite first_pass_near_sentinel in Hp. inversion Hp; subst p.
  vm_compute in Hc. discriminate.
Qed.

(** With weights that underflow to zero the loop stops in its second
    pass. *)
Lemma far_passes k rmsd w :
  reaches externals (opposite 2000) coincident k rmsd w ->
  (k = 0%nat /\ rmsd = _LARGE /\ w = [1; 1])
  \/ (k = 1%nat /\ rmsd = 2000 /\ w = [0; 0]).
Proof.
  induction 1 as [|k rmsd w p Hr IH Hp Hc]; [left; repeat split|].
  destruct IH as [(-> & -> & ->)|(-> & -> & ->)].
  - rewrite first_pass_far in Hp. inversion Hp; subst p.
    right. repeat split.
  - rewrite pass_with_zero_weights in Hp. discriminate.
Qed.

(** When the sum of squares overflows every pass is the same. *)
Lemma overflowing_passes k :
  reaches externals (opposite 1e154) coincident (S k) infinity [1; 1].
Proof.
  set (p := {| t_com := zero3; q_com := zero3; r := identity3;
               _diff := [(-1e154, 0, 0); (1e154, 0, 0)];
               _current := infinity |}).
  change (reaches externals (opposite 1e154) coincident (S k)
            (_current p) (reweight externals p)).
  induction k as [|k IH].
  - eapply reaches_next; [apply reaches_first|exact pass_overflowing|].
    vm_compute. reflexivity.
  - eapply reaches_next; [exact IH|exact pass_overflowing|].
    vm_compute. reflexivity.
Qed.

Lemma identical_second_pass :
  reaches externals (opposite 1) (opposite 1) 1 0 [1; 1].
Proof.
  set (p := {| t_com := zero3; q_com := zero3; r := identity3;
               _diff := [(0, 0, 0); (0, 0, 0)]; _current := 0 |}).
  change (reaches externals (opposite 1) (opposite 1) 1
            (_current p) (reweight externals p)).
  eapply reaches_next; [apply reaches_first|exact pass_identical|].
  vm_compute. reflexivity.
Qed.

(** C1 (amended): when a pass of [dynamic_kabsch] meets the convergence
    test within the 100 passes, the call returns the RMSD stored before
    that pass (the RMSD of the pass before it, or the initial [1000.0]
    when the first pass converges) together with the rotation matrix and
    the two centroids computed by the converging pass itself. *)
Theorem converged_result E target query k rmsd w p :
  reaches E target query k rmsd w ->
  (k < _MAX_ITER)%nat ->
  loop_body E target query w = Ok p ->
  converged rmsd p = true ->
  dynamic_kabsch E target query = Ok (rmsd, r p, t_com p, q_com p)
  /\ (k = 0%nat -> rmsd = _LARGE)
  /\ (forall j, k = S j ->
        exists rmsd' w' p',
          reaches E target query j rmsd' w'
          /\ loop_body E target query w' = Ok p'
          /\ converged rmsd' p' = false
          /\ rmsd = _current p' /\ w = reweight E p').
Proof.
  intros Hr Hk Hp Hc. split; [|split].
  - rewrite (LoopFacts.loop_of_reaches E target query k rmsd w Hr) by lia.
    replace (_MAX_ITER - k)%nat with (S (_MAX_ITER - S k)) by lia.
    now apply LoopFacts.loop_converges.
  - intros ->. now apply LoopFacts.reaches_0_inv in Hr.
  - intros j ->. apply LoopFacts.reaches_S_inv in Hr as (rmsd0 & w0 & p0 & H).
    exists rmsd0, w0, p0. tauto.
Qed.

Lemma converged_result_witness :
  dynamic_kabsch externals (opposite 1) (opposite 1) = Ok (0, identity3, zero3, zero3).
Proof.
  apply (converged_result externals (opposite 1) (opposite 1) 1 0 [1; 1]
           {| t_com := zero3; q_com := zero3; r := identity3;
              _diff := [(0, 0, 0); (0, 0, 0)]; _current := 0 |}).
  - exact identical_second_pass.
  - unfold _MAX_ITER. repeat constructor.
  - exact pass_identical.
  - reflexivity.
Defined.

(** C1 as stated fails: with the target points [(1000.0004, 0, 0)] and
    [(-1000.0004, 0, 0)] and a query of two coincident points the first
    pass already meets the test.  The call returns the initial [1000.0],
    which no pass computed, with the rotation and centroids of that first
    pass; no pass came before it. *)
Lemma first_pass_has_no_predecessor :
  dynamic_kabsch externals (opposite 1000.0004) coincident
  = Ok (1000, identity3, zero3, zero3)
  /\ ~ from_previous_pass externals (opposite 1000.0004) coincident
         (1000, identity3, zero3, zero3).
Proof.
  split; [vm_compute; reflexivity|].
  intros (k & rmsd & w & p & p' & Hr & Hp & Hc & _).
  assert (k = 0%nat) by (eapply near_sentinel_only_first_pass, Hr). subst k.
  apply LoopFacts.reaches_0_inv in Hr as [-> ->].
  change (loop_body externals (opposite 1000.0004) coincident [1; 1] = Ok p) in Hp.
  rewrite first_pass_near_sentinel in Hp. inversion Hp; subst p.
  vm_compute in Hc. discriminate.
Qed.




(** C7 (amended): [dynamic_kabsch] raises its "did not converge in 100
    steps" exception exactly when 100 passes have completed, none of them
    meeting the convergence test. *)
Theorem budget_exhausted E target query :
  (exists rmsd w, reaches E target query _MAX_ITER rmsd w)
  <-> dynamic_kabsch E target query = Raise not_converged.
Proof.
  split.
  - intros (rmsd & w & Hr).
    rewrite (LoopFacts.loop_of_reaches E target query _ rmsd w Hr) by lia.
    now rewrite Nat.sub_diag.
  - intros H.
    apply (LoopFacts.not_converged_only_at_end E target query _MAX_ITER 0 _LARGE
             (repeat 1 (List.length target))); [constructor|exact H].
Qed.

Lemma budget_exhausted_witness :
  dynamic_kabsch externals (opposite 1e154) coincident = Raise not_converged.
Proof.
  apply (proj1 (budget_exhausted externals (opposite 1e154) coincident)).
  exists infinity, [1; 1]. exact (overflowing_passes 99).
Defined.

(** C7 as stated fails: with the target points [(2000, 0, 0)] and
    [(-2000, 0, 0)] and a query of two coincident points no pass meets the
    convergence test, yet the call stops in its second pass with numpy's
    [ZeroDivisionError], all weights having underflowed to zero. *)
Lemma zero_weights_end_the_loop :
  (forall k rmsd w p,
      reaches externals (opposite 2000) coincident k rmsd w ->
      loop_body externals (opposite 2000) coincident w = Ok p ->
      converged rmsd p = false)
  /\ dynamic_kabsch externals (opposite 2000) coincident = Raise ZeroDivisionError.
Proof.
  split; [|vm_compute; reflexivity].
  intros k rmsd w p Hr Hp.
  destruct (far_passes k rmsd w Hr) as [(-> & -> & ->)|(-> & -> & ->)].
  - rewrite first_pass_far in Hp. inversion Hp; subst p. vm_compute. reflexivity.
  - rewrite pass_with_zero_weights in Hp. discriminate.
Qed.

(** C8 (amended): for a target, a query and weights of one length, the
    weights not summing to zero, [rmsd] computes the weighted root mean
    square of the displacements; a value above [0.001] is returned
    unchanged, and any other value (at most [0.001], or not a number) is
    returned as [0]. *)
Theorem rmsd_threshold target query w :
  List.length query = List.length target ->
  List.length w = List.length target ->
  (fsum w =? 0) = false ->
  rmsd_raw target (Some query) (Some w)
  = Ok (weighted_rms (displacements target query) w)
  /\ ((_TINY <? weighted_rms (displacements target query) w) = true ->
      rmsd target (Some query) (Some w)
      = Ok (weighted_rms (displacements target query) w))
  /\ ((_TINY <? weighted_rms (displacements target query) w) = false ->
      rmsd target (Some query) (Some w) = Ok 0).
Proof.
  intros Hq Hw Hs.
  assert (Hraw : rmsd_raw target (Some query) (Some w)
                 = Ok (weighted_rms (displacements target query) w)).
  { unfold rmsd_raw, zip_with. rewrite Hq, Nat.eqb_refl. cbn [bind].
    unfold np_average1, zip_with.
    fold (displacements target query).
    assert (Hl : List.length (map sumsq (displacements target query)) = List.length w).
    { unfold displacements. rewrite !length_map, length_combine. lia. }
    rewrite Hl, Nat.eqb_refl. cbn [bind]. rewrite Hs. reflexivity. }
  split; [exact Hraw|].
  unfold rmsd. rewrite Hraw. cbn [bind].
  split; intros ->; reflexivity.
Qed.

Lemma rmsd_threshold_witness :
  rmsd (repeat (0, 0, 0) 22) (Some (repeat (0.002, 0, 0) 22)) (Some (repeat 1 22))
  = Ok 0.002.
Proof.
  apply (rmsd_threshold (repeat (0, 0, 0) 22) (repeat (0.002, 0, 0) 22) (repeat 1 22));
    vm_compute; reflexivity.
Defined.

(** C8 as stated fails: a displacement of exactly [0.001] for one point
    gives the computed value [0.001], which is at least [0.001], and
    [rmsd] returns [0]; and weights that sum to zero make it raise. *)
Lemma rmsd_at_threshold :
  rmsd_raw [(0, 0, 0)] (Some [(0.001, 0, 0)]) (Some [1]) = Ok 0.001
  /\ rmsd [(0, 0, 0)] (Some [(0.001, 0, 0)]) (Some [1]) = Ok 0
  /\ rmsd [(0, 0, 0)] (Some [(0.001, 0, 0)]) (Some [0]) = Raise ZeroDivisionError.
Proof. repeat split; vm_compute; reflexivity. Qed.

(** C10: when the weighted RMSD of the first pass is within [0.001] of the
    initial [1000.0], the call returns that initial [1000.0] with the
    rotation and centroids of the first pass. *)
Theorem sentinel_on_first_pass E target query p :
  loop_body E target query (repeat 1 (List.length target)) = Ok p ->
  (abs (_current p - 1000) <? 0.001) = true ->
  dynamic_kabsch E target query = Ok (1000, r p, t_com p, q_com p).
Proof.
  intros Hp Hc. unfold dynamic_kabsch, _MAX_ITER.
  now apply LoopFacts.loop_converges.
Qed.

Lemma sentinel_on_first_pass_witness :
  dynamic_kabsch externals (opposite 1000.0004) coincident
  = Ok (1000, identity3, zero3, zero3).
Proof.
  apply (sentinel_on_first_pass externals (opposite 1000.0004) coincident
           {| t_com := zero3; q_com := zero3; r := identity3;
              _diff := [(-1000.0004, 0, 0); (1000.0004, 0, 0)];
              _current := 1000.0004 |}).
  - exact first_pass_near_sentinel.
  - reflexivity.
Defined.

(** * Helper functions

    Properties of [_chunk_lst], [_extend_last] and [ranges]. *)

Module ChunkFacts.
Import Utils.

Section Chunks.
Context {A : Type}.

Lemma chunk_loop_acc fuel : forall (lst : list A) k acc,
  chunk_loop fuel lst k acc
  = match chunk_loop fuel lst k [] with
    | Some cs => Some (acc ++ cs)
    | None => None
    end.
Proof.
  induction fuel as [|fuel IH]; intros lst k acc; [reflexivity|].
  destruct lst as [|a lst]; cbn [chunk_loop].
  - now rewrite app_nil_r.
  - rewrite IH. rewrite (IH _ _ ([] ++ _)).
    destruct (chunk_loop fuel _ k []); [|reflexivity].
    now rewrite <- app_assoc.
Qed.

Lemma slice_bound_pos len n : (0 < n)%nat -> slice_bound len (Z.of_nat n) = n.
Proof.
  intros H. unfold slice_bound.
  destruct (Z.ltb_spec (Z.of_nat n) 0); [lia|]. apply Nat2Z.id.
Qed.

(** What the loop makes of a list with a positive slice length. *)
Lemma chunk_loop_spec n : (0 < n)%nat -> forall fuel (lst : list A),
  (List.length lst < fuel)%nat ->
  exists cs, chunk_loop fuel lst (Z.of_nat n) [] = Some cs
    /\ List.concat cs = lst
    /\ Forall (fun c => List.length c = n) (removelast cs)
    /\ (lst <> [] -> cs <> [] /\ (1 <= List.length (last cs []) <= n)%nat)
    /\ (lst = [] -> cs = []).
Proof.
  intros Hn. induction fuel as [|fuel IH]; intros lst Hf; [lia|].
  destruct lst as [|a lst].
  - exists []. cbn. repeat split; try constructor; congruence.
  - cbn [chunk_loop]. rewrite chunk_loop_acc.
    unfold slice_from, slice_to. rewrite (slice_bound_pos _ n Hn).
    set (l := a :: lst) in *.
    assert (Hl : List.length l = S (List.length lst)) by reflexivity.
    destruct (IH (skipn n l)) as (cs & Hcs & Hcat & Hfull & Hne & He).
    { rewrite length_skipn. lia. }
    rewrite Hcs. exists (firstn n l :: cs). cbn [app].
    split; [reflexivity|]. split; [|split; [|split]].
    + cbn [List.concat]. rewrite Hcat. apply firstn_skipn.
    + destruct cs as [|c cs]; [constructor|].
      change (removelast (firstn n l :: c :: cs))
        with (firstn n l :: removelast (c :: cs)).
      constructor; [|exact Hfull].
      assert (Hs : skipn n l <> []) by (intros E; specialize (He E); discriminate).
      rewrite length_firstn.
      assert (List.length (skipn n l) <> 0)%nat
        by (intros E; apply Hs; now apply length_zero_iff_nil).
      rewrite length_skipn in H. lia.
    + intros _. split; [discriminate|].
      destruct cs as [|c cs].
      * cbn [last]. rewrite length_firstn. lia.
      * change (last (firstn n l :: c :: cs) []) with (last (c :: cs) []).
        apply Hne. intros E. specialize (He E). discriminate.
    + discriminate.
Qed.

Lemma removelast_last (cs : list (list A)) :
  cs <> [] -> cs = removelast cs ++ [last cs []].
Proof. intros H. now apply app_removelast_last. Qed.

Lemma concat_removelast (cs : list (list A)) :
  cs <> [] -> List.concat cs = List.concat (removelast cs) ++ last cs [].
Proof.
  intros H.
  transitivity (List.concat (removelast cs ++ [last cs []])).
  - f_equal. now apply removelast_last.
  - rewrite concat_app. cbn [List.concat]. now rewrite app_nil_r.
Qed.

Lemma full_slices_length n (cs : list (list A)) :
  cs <> [] ->
  Forall (fun c => List.length c = n) (removelast cs) ->
  List.length (List.concat cs)
  = (n * (List.length cs - 1) + List.length (last cs []))%nat.
Proof.
  induction cs as [|c cs IH]; [congruence|]. intros _ Hfull.
  destruct cs as [|c' cs].
  - cbn. rewrite app_nil_r. lia.
  - change (removelast (c :: c' :: cs)) with (c :: removelast (c' :: cs)) in Hfull.
    inversion Hfull as [|? ? Hc Hrest]; subst.
    change (last (c :: c' :: cs) []) with (last (c' :: cs) []).
    change (List.concat (c :: c' :: cs)) with (c ++ List.concat (c' :: cs)).
    rewrite length_app, IH; [|discriminate|exact Hrest].
    cbn [List.length]. lia.
Qed.

Lemma slice_from_nonpos (lst : list A) k :
  (k <= 0)%Z -> lst <> [] -> slice_from lst k <> [].
Proof.
  intros Hk Hl E.
  assert (Hlen : List.length (slice_from lst k) = 0%nat) by now rewrite E.
  unfold slice_from in Hlen. rewrite length_skipn in Hlen.
  assert (0 < List.length lst)%nat
    by (destruct lst; [congruence|cbn; lia]).
  unfold slice_bound in Hlen.
  destruct (Z.ltb_spec k 0); lia.
Qed.

Lemma chunk_loop_diverges k : (k <= 0)%Z -> forall fuel (lst : list A) acc,
  lst <> [] -> chunk_loop fuel lst k acc = None.
Proof.
  intros Hk. induction fuel as [|fuel IH]; intros lst acc Hl; [reflexivity|].
  destruct lst as [|a lst]; [congruence|]. cbn [chunk_loop].
  apply IH. now apply slice_from_nonpos.
Qed.

End Chunks.

(** X1: with a slice length [n >= 1] (and enough fuel for the loop to
    end) [_chunk_lst] returns slices whose concatenation is the list: all
    but the last have [n] items, the last has between 1 and [n], and
    there are [ceil(len / n)] of them. *)
Theorem chunk_lst_slices {A} n fuel (lst : list A) :
  (0 < n)%nat -> (List.length lst < fuel)%nat ->
  exists cs, _chunk_lst fuel lst (Z.of_nat n) None = Some cs
    /\ List.concat cs = lst
    /\ Forall (fun c => List.length c = n) (removelast cs)
    /\ (lst <> [] -> (1 <= List.length (last cs []) <= n)%nat)
    /\ List.length cs = ((List.length lst + n - 1) / n)%nat.
Proof.
  intros Hn Hf.
  destruct (chunk_loop_spec n Hn fuel lst Hf) as (cs & Hcs & Hcat & Hfull & Hne & He).
  exists cs. unfold _chunk_lst. rewrite Hcs.
  split; [reflexivity|]. split; [exact Hcat|]. split; [exact Hfull|].
  split; [intros H; now apply Hne|].
  destruct lst as [|a lst].
  - rewrite (He eq_refl). cbn [List.length].
    symmetry. apply Nat.div_small. lia.
  - destruct Hne as [Hc Hlast]; [discriminate|].
    pose proof (full_slices_length n cs Hc Hfull) as Hlen. rewrite Hcat in Hlen.
    assert (0 < List.length cs)%nat by (destruct cs; [congruence|cbn; lia]).
    apply (Nat.div_unique _ _ _ (List.length (last cs []) - 1)); [lia|].
    destruct (List.length cs) as [|q]; [lia|]. cbn [List.length] in Hlen |- *.
    replace (S q - 1)%nat with q in Hlen by lia. nia.
Qed.

(** X2: with a token to extend the last slice, every slice returned has
    exactly [n] items and their concatenation is the list followed by
    fewer than [n] tokens; for the empty list the result is one slice of
    [n] tokens. *)
Theorem chunk_lst_padded {A} n fuel (lst : list A) (token : A) :
  (0 < n)%nat -> (List.length lst < fuel)%nat ->
  exists cs pad, _chunk_lst fuel lst (Z.of_nat n) (Some token) = Some cs
    /\ List.concat cs = lst ++ repeat token pad
    /\ Forall (fun c => List.length c = n) cs
    /\ (lst = [] -> pad = n)
    /\ (lst <> [] -> (pad < n)%nat).
Proof.
  intros Hn Hf.
  destruct (chunk_loop_spec n Hn fuel lst Hf) as (cs & Hcs & Hcat & Hfull & Hne & He).
  unfold _chunk_lst. rewrite Hcs.
  destruct lst as [|a lst].
  - rewrite (He eq_refl). exists [repeat token n], n.
    unfold _extend_last, times. rewrite Nat2Z.id. cbn [List.concat app].
    split; [reflexivity|]. split; [now rewrite app_nil_r|].
    split; [constructor; [apply repeat_length|constructor]|].
    split; [reflexivity|congruence].
  - destruct Hne as [Hc Hlast]; [discriminate|].
    set (l := last cs []) in *.
    exists (removelast cs ++ [l ++ repeat token (n - List.length l)]), (n - List.length l)%nat.
    split; [|split; [|split; [|split; [congruence|intros _; lia]]]].
    + unfold _extend_last. destruct cs as [|c cs]; [congruence|].
      fold l. unfold times.
      replace (Z.to_nat (Z.of_nat n - Z.of_nat (List.length l))) with (n - List.length l)%nat by lia.
      reflexivity.
    + rewrite concat_app. cbn [List.concat]. rewrite app_nil_r, app_assoc.
      rewrite <- Hcat. now rewrite (concat_removelast cs Hc).
    + apply Forall_app. split; [exact Hfull|].
      constructor; [|constructor]. rewrite length_app, repeat_length. lia.
Qed.

(** X3: with a slice length of zero or less and a list that is not empty
    the [while] loop never ends: whatever the bound on its passes, the
    condition [lst != []] still holds. *)
Theorem chunk_lst_never_returns {A} fuel (lst : list A) k extend_last :
  (k <= 0)%Z -> lst <> [] -> _chunk_lst fuel lst k extend_last = None.
Proof.
  intros Hk Hl. unfold _chunk_lst. now rewrite chunk_loop_diverges.
Qed.

Lemma chunk_lst_slices_witness :
  exists cs, _chunk_lst 6 [1; 2; 3; 4; 5]%Z 2 None = Some cs
    /\ List.concat cs = [1; 2; 3; 4; 5]%Z
    /\ Forall (fun c => List.length c = 2%nat) (removelast cs)
    /\ ([1; 2; 3; 4; 5]%Z <> [] -> (1 <= List.length (last cs []) <= 2)%nat)
    /\ List.length cs = ((5 + 2 - 1) / 2)%nat.
Proof. apply (chunk_lst_slices 2 6 [1; 2; 3; 4; 5]%Z); repeat constructor. Defined.

Lemma chunk_lst_padded_witness :
  exists cs pad, _chunk_lst 6 [1; 2; 3; 4; 5]%Z 2 (Some 0%Z) = Some cs
    /\ List.concat cs = [1; 2; 3; 4; 5]%Z ++ repeat 0%Z pad
    /\ Forall (fun c => List.length c = 2%nat) cs
    /\ ([1; 2; 3; 4; 5]%Z = [] -> pad = 2%nat)
    /\ ([1; 2; 3; 4; 5]%Z <> [] -> (pad < 2)%nat).
Proof. apply (chunk_lst_padded 2 6 [1; 2; 3; 4; 5]%Z 0%Z); repeat constructor. Defined.

Lemma chunk_lst_never_returns_witness :
  _chunk_lst 1000 [1; 2; 3]%Z 0 (Some 0%Z) = None.
Proof.
  apply (chunk_lst_never_returns 1000 [1; 2; 3]%Z 0%Z (Some 0%Z)).
  - apply Z.le_refl.
  - discriminate.
Defined.

End ChunkFacts.

Module RangesFacts.
Import Utils.
Local Open Scope Z_scope.

Lemma py_range_empty a b : b <= a -> py_range a b = [].
Proof. intros H. unfold py_range. now replace (Z.to_nat (b - a)) with 0%nat by lia. Qed.

Lemma py_range_cons a b : a < b -> py_range a b = a :: py_range (a + 1) b.
Proof.
  intros H. unfold py_range.
  replace (Z.to_nat (b - a)) with (S (Z.to_nat (b - (a + 1)))) by lia.
  cbn [seq map]. f_equal; [lia|].
  rewrite <- seq_shift, map_map. apply map_ext. intros i. lia.
Qed.

Lemma py_range_snoc a b : a <= b -> py_range a (b + 1) = py_range a b ++ [b].
Proof.
  intros H. unfold py_range.
  replace (Z.to_nat (b + 1 - a)) with (Z.to_nat (b - a) + 1)%nat by lia.
  rewrite seq_app, map_app. cbn [seq map]. do 2 f_equal. lia.
Qed.

Lemma expand_app rs rs' : expand (rs ++ rs') = expand rs ++ expand rs'.
Proof. unfold expand. apply flat_map_app. Qed.

Lemma ranges_loop_acc idata : forall first prev result,
  ranges_loop first prev idata result = result ++ ranges_loop first prev idata [].
Proof.
  induction idata as [|x idata IH]; intros first prev result; cbn [ranges_loop].
  - reflexivity.
  - destruct (x - prev =? 1).
    + apply IH.
    + rewrite IH, (IH _ _ ([] ++ _)). now rewrite <- app_assoc.
Qed.

Lemma ranges_loop_expand idata : forall first prev,
  first <= prev ->
  expand (ranges_loop first prev idata []) = py_range first (prev + 1) ++ idata.
Proof.
  induction idata as [|x idata IH]; intros first prev H; cbn [ranges_loop].
  - unfold expand. cbn [app flat_map fst snd]. reflexivity.
  - destruct (Z.eqb_spec (x - prev) 1) as [E|E].
    + rewrite IH by lia. replace x with (prev + 1) by lia.
      rewrite (py_range_snoc first (prev + 1)) by lia.
      now rewrite <- app_assoc.
    + rewrite ranges_loop_acc, expand_app, IH by lia.
      unfold expand at 1. cbn [app flat_map fst snd].
      rewrite (py_range_cons x (x + 1)), (py_range_empty (x + 1)) by lia.
      now rewrite app_nil_r.
Qed.

Lemma ranges_loop_head idata : forall first prev,
  exists b rest, ranges_loop first prev idata [] = (first, b) :: rest.
Proof.
  induction idata as [|x idata IH]; intros first prev; cbn [ranges_loop].
  - cbn [app]. eauto.
  - destruct (x - prev =? 1); [apply IH|].
    rewrite ranges_loop_acc. cbn [app]. eauto.
Qed.

Lemma ranges_loop_run_form idata : forall first prev,
  first <= prev -> run_form (ranges_loop first prev idata []).
Proof.
  induction idata as [|x idata IH]; intros first prev H; cbn [ranges_loop].
  - cbn. lia.
  - destruct (Z.eqb_spec (x - prev) 1) as [E|E]; [apply IH; lia|].
    rewrite ranges_loop_acc. cbn [app].
    destruct (ranges_loop_head idata x x) as (b & rest & Hh).
    specialize (IH x x (Z.le_refl x)). rewrite Hh in IH |- *.
    cbn [run_form] in IH |- *. repeat split; try lia; apply IH.
Qed.

(** A run of consecutive integers is swallowed by the loop. *)
Lemma ranges_loop_run n : forall first prev b rest result,
  Z.to_nat (b - (prev + 1)) = n -> prev < b ->
  ranges_loop first prev (py_range (prev + 1) b ++ rest) result
  = ranges_loop first (b - 1) rest result.
Proof.
  induction n as [|n IH]; intros first prev b rest result Hn Hb.
  - rewrite py_range_empty by lia. cbn [app]. f_equal. lia.
  - rewrite py_range_cons by lia. cbn [app ranges_loop].
    replace (prev + 1 - prev =? 1) with true by (symmetry; apply Z.eqb_eq; lia).
    apply IH; lia.
Qed.

(** X4: expanding the half-open ranges that [ranges] returns gives the
    data back, item for item, whatever the data (sorted or not, with
    repetitions or not). *)
Theorem ranges_expand data : expand (ranges data) = data.
Proof.
  destruct data as [|x data]; [reflexivity|]. cbn [ranges].
  rewrite ranges_loop_expand by lia.
  now rewrite (py_range_cons x (x + 1)), (py_range_empty (x + 1)) by lia.
Qed.

(** X5: in the result of [ranges] no range is empty and no range starts
    where the one before it ends: the runs are as long as they can be. *)
Theorem ranges_run_form data : run_form (ranges data).
Proof.
  destruct data as [|x data]; [exact I|]. apply ranges_loop_run_form. lia.
Qed.

(** X6: [ranges] recovers every list of ranges of that form from the
    integers it stands for. *)
Theorem ranges_of_expand rs : run_form rs -> ranges (expand rs) = rs.
Proof.
  induction rs as [|[a b] rs IH]; [reflexivity|].
  intros (Hab & Hnext & Hrs).
  unfold expand. cbn [flat_map fst snd]. fold (expand rs).
  rewrite (py_range_cons a b) by lia. cbn [app ranges].
  rewrite (ranges_loop_run (Z.to_nat (b - (a + 1))) a a b (expand rs) []) by lia.
  destruct rs as [|[c d] rs].
  - cbn. do 2 f_equal. lia.
  - specialize (IH Hrs). destruct Hrs as (Hcd & _ & _).
    unfold expand in IH |- *. cbn [flat_map fst snd] in IH |- *.
    rewrite (py_range_cons c d) in IH |- * by lia.
    cbn [app ranges ranges_loop] in IH |- *.
    replace (c - (b - 1) =? 1) with false by (symmetry; apply Z.eqb_neq; lia).
    rewrite ranges_loop_acc. cbn [app].
    replace (b - 1 + 1) with b by lia. now rewrite IH.
Qed.

Lemma ranges_of_expand_witness :
  ranges (expand [(1, 4); (7, 8); (3, 5)]) = [(1, 4); (7, 8); (3, 5)].
Proof.
  apply (ranges_of_expand [(1, 4); (7, 8); (3, 5)]).
  cbn. repeat split; try discriminate; reflexivity.
Defined.

End RangesFacts.

(** ** Residue names and [pep2pep1] *)

Module ResidueFacts.
Import Utils Residues.
Local Open Scope string_scope.

Lemma lookup_In {A} k (d : list (string * A)) v :
  lookup k d = Some v -> In (k, v) d.
Proof.
  induction d as [|[k' v'] d IH]; cbn [lookup]; [discriminate|].
  destruct (String.eqb_spec k k') as [->|Hne].
  - intros H. inversion H. now left.
  - intros H. right. now apply IH.
Qed.

Lemma member_In x l : member x l = true <-> In x l.
Proof.
  unfold member. rewrite existsb_exists. split.
  - intros (y & Hy & E). apply String.eqb_eq in E. now subst.
  - intros H. exists x. split; [exact H|apply String.eqb_refl].
Qed.

Lemma has_template_known name : has_template name = true -> known name.
Proof. unfold has_template, known. destruct (lookup name SIDECNT); congruence. Qed.

Lemma AA_NAMES_templates : forallb has_template (values AA_NAMES) = true.
Proof. vm_compute. reflexivity. Qed.

Lemma AA_SUB_NAMES_standard :
  forallb (fun v => member v (values AA_NAMES)) (values AA_SUB_NAMES) = true.
Proof. vm_compute. reflexivity. Qed.

Lemma standard_known name : member name (values AA_NAMES) = true -> known name.
Proof.
  intros H. apply member_In in H. apply has_template_known.
  pose proof AA_NAMES_templates as Ht. rewrite forallb_forall in Ht. now apply Ht.
Qed.

Lemma aa_to_long_standard seq name :
  aa_to_long seq = Return name -> member name (values AA_NAMES) = true.
Proof.
  unfold aa_to_long. destruct (lookup (upper seq) AA_NAMES) eqn:E; [|discriminate].
  intros H. inversion H; subst. apply lookup_In in E.
  apply member_In. unfold values. now apply (in_map snd) in E.
Qed.

(** X7: every long name that [aa_to_long] returns has an entry in
    [SIDECNT]. *)
Theorem aa_to_long_known seq name :
  aa_to_long seq = Return name -> known name.
Proof. intros H. eapply standard_known, aa_to_long_standard, H. Qed.

Lemma aa_to_long_known_witness : known "ALA".
Proof. apply (aa_to_long_known "a" "ALA"). reflexivity. Defined.

(** X8: [aa_to_short] undoes [aa_to_long]: from the long name it gives
    back the short one, in capitals. *)
Theorem aa_long_short seq name :
  aa_to_long seq = Return name -> aa_to_short name = Return (upper seq).
Proof.
  unfold aa_to_long. destruct (lookup (upper seq) AA_NAMES) eqn:E; [|discriminate].
  intros H. inversion H; subst. apply lookup_In in E.
  cbn in E.
  repeat (destruct E as [E|E]; [inversion E; reflexivity|]).
  contradiction.
Qed.

Lemma aa_long_short_witness : aa_to_short "TRP" = Return (upper "w").
Proof. apply (aa_long_short "w" "TRP"). reflexivity. Defined.

Lemma first_key_In s items k :
  first_key_of s items = Some k -> In (k, s) items.
Proof.
  induction items as [|[short full] items IH]; cbn [first_key_of]; [discriminate|].
  destruct (String.eqb_spec full s) as [->|Hne].
  - intros H. inversion H. now left.
  - intros H. right. now apply IH.
Qed.

Lemma first_key_None s items :
  first_key_of s items = None -> ~ In s (values items).
Proof.
  induction items as [|[short full] items IH]; cbn [first_key_of]; [intros _ []|].
  destruct (String.eqb_spec full s) as [->|Hne]; [discriminate|].
  intros H [E|E]; [now apply Hne|now apply IH].
Qed.

Lemma first_key_unique s items k :
  NoDup (values items) -> In (k, s) items -> first_key_of s items = Some k.
Proof.
  induction items as [|[short full] items IH]; intros Hnd Hin; [destruct Hin|].
  cbn [first_key_of]. unfold values in Hnd. cbn [map snd] in Hnd.
  inversion Hnd as [|? ? Hnotin Hnd']; subst.
  destruct Hin as [E|Hin].
  - inversion E; subst. now rewrite String.eqb_refl.
  - destruct (String.eqb_spec full s) as [->|Hne]; [|now apply IH].
    exfalso. apply Hnotin. now apply (in_map snd) in Hin.
Qed.

Lemma AA_NAMES_values_NoDup : NoDup (values AA_NAMES).
Proof.
  unfold values. cbn [map snd AA_NAMES].
  repeat (constructor; [cbn [In]; intuition discriminate|]). constructor.
Qed.

(** X9: [aa_to_long] undoes [aa_to_short]: from the short name it gives
    back the long one, in capitals. *)
Theorem aa_short_long seq short :
  aa_to_short seq = Return short -> aa_to_long short = Return (upper seq).
Proof.
  unfold aa_to_short, aa_to_short_in.
  destruct (first_key_of (upper seq) AA_NAMES) eqn:E; [|discriminate].
  intros H. inversion H; subst. apply first_key_In in E.
  cbn in E.
  repeat (destruct E as [E|E]; [inversion E; reflexivity|]).
  contradiction.
Qed.

Lemma aa_short_long_witness : aa_to_long "W" = Return (upper "trp").
Proof. apply (aa_short_long "trp" "W"). reflexivity. Defined.

(** X10: the result of [aa_to_short] does not depend on the order in which
    the dictionary [AA_NAMES] yields its items. *)
Theorem aa_to_short_any_order items seq :
  Permutation AA_NAMES items -> aa_to_short_in items seq = aa_to_short seq.
Proof.
  intros Hp. unfold aa_to_short, aa_to_short_in.
  assert (Hnd : NoDup (values items)).
  { eapply Permutation_NoDup; [|exact AA_NAMES_values_NoDup].
    unfold values. now apply Permutation_map. }
  destruct (first_key_of (upper seq) AA_NAMES) as [k|] eqn:E.
  - apply first_key_In in E.
    rewrite (first_key_unique (upper seq) items k Hnd); [reflexivity|].
    eapply Permutation_in; eassumption.
  - apply first_key_None in E.
    destruct (first_key_of (upper seq) items) as [k|] eqn:E'; [|reflexivity].
    exfalso. apply E. apply first_key_In in E'.
    apply (in_map snd) in E'. unfold values.
    eapply Permutation_in; [apply Permutation_map, Permutation_sym, Hp|exact E'].
Qed.

Lemma aa_to_short_any_order_witness :
  aa_to_short_in (rev AA_NAMES) "gly" = aa_to_short "gly".
Proof. apply (aa_to_short_any_order (rev AA_NAMES) "gly"). apply Permutation_rev. Defined.

(** X11: every residue of a sequence that [check_peptide_sequence] accepts
    is converted by [aa_to_long], to a name that [SIDECNT] has an entry
    for. *)
Theorem checked_sequence_converts sequence :
  check_peptide_sequence sequence = Return true ->
  Forall (fun c => exists name,
              aa_to_long (String c EmptyString) = Return name /\ known name)
         (list_ascii_of_string sequence).
Proof.
  induction sequence as [|c sequence IH]; cbn [check_peptide_sequence list_ascii_of_string];
    [constructor|].
  destruct (member (String c EmptyString) (keys AA_NAMES)) eqn:E; [|discriminate].
  intros H. constructor; [|now apply IH].
  apply member_In in E. cbn in E.
  repeat (destruct E as [E|E];
          [inversion E; eexists; split;
           [reflexivity|apply has_template_known; reflexivity]|]).
  contradiction.
Qed.

Lemma checked_sequence_converts_witness :
  Forall (fun c => exists name,
              aa_to_long (String c EmptyString) = Return name /\ known name)
         (list_ascii_of_string "ACDW").
Proof. apply (checked_sequence_converts "ACDW"). reflexivity. Defined.

Lemma fix_residue_value residue modified warned :
  fix_residue residue = Return (modified, warned) ->
  member modified (values AA_NAMES) = true.
Proof.
  unfold fix_residue. intros H.
  destruct (member residue (values AA_NAMES)) eqn:E.
  - inversion H; subst. exact E.
  - destruct (member residue (keys AA_SUB_NAMES)); [|discriminate].
    destruct (lookup residue AA_SUB_NAMES) as [m|] eqn:El; [|discriminate].
    inversion H; subst. apply lookup_In in El. apply (in_map snd) in El.
    pose proof AA_SUB_NAMES_standard as Hs. rewrite forallb_forall in Hs.
    now apply Hs.
Qed.

(** X12: whatever [fix_residue] returns is one of the twenty standard
    three-letter names, and [SIDECNT] has an entry for it. *)
Theorem fix_residue_standard residue modified warned :
  fix_residue residue = Return (modified, warned) ->
  member modified (values AA_NAMES) = true /\ known modified.
Proof.
  intros H. apply fix_residue_value in H.
  split; [exact H|now apply standard_known].
Qed.

Lemma fix_residue_standard_witness :
  member "MET" (values AA_NAMES) = true /\ known "MET".
Proof.
  apply (fix_residue_standard "MSE" "MET" [replaced_message "MSE" "MET"]).
  reflexivity.
Defined.

(** X13: [fix_residue] is idempotent: its result is returned unchanged,
    and without a warning, when it is fixed again. *)
Theorem fix_residue_idempotent residue modified warned :
  fix_residue residue = Return (modified, warned) ->
  fix_residue modified = Return (modified, []).
Proof.
  intros H. apply fix_residue_value in H.
  unfold fix_residue. now rewrite H.
Qed.

Lemma fix_residue_idempotent_witness :
  fix_residue "SER" = Return ("SER", []).
Proof.
  apply (fix_residue_idempotent "SEP" "SER" [replaced_message "SEP" "SER"]).
  reflexivity.
Defined.

(** X14: residue names that went through [fix_residue] never make
    [rebuild_one] fail: with such a name for every point of a backbone of
    at least three points it returns one point per residue. *)
Theorem fixed_names_rebuild nms vec :
  Forall (fun n => exists residue warned, fix_residue residue = Return (n, warned)) nms ->
  (3 <= List.length vec)%nat -> (List.length vec <= List.length nms)%nat ->
  exists out, SCModeler.rebuild_one nms vec true = Ok out
    /\ List.length out = List.length vec.
Proof.
  intros Hn Hlen Hle.
  destruct (RebuildFacts.rebuild_one_ok nms vec true Hlen) as (pv & out & _ & H & Hl & _).
  - intros _. split; [exact Hle|].
    eapply Forall_impl; [|exact Hn].
    intros n (residue & warned & Hf). eapply standard_known, fix_residue_value, Hf.
  - eauto.
Qed.

Lemma fixed_names_rebuild_witness :
  exists out,
    SCModeler.rebuild_one ["MET"; "SER"; "HIS"]
      [(0, 0, 0); (3.8, 0, 0); (5, 3, 1)]%float true = Ok out
    /\ List.length out = 3%nat.
Proof.
  apply (fixed_names_rebuild ["MET"; "SER"; "HIS"] [(0, 0, 0); (3.8, 0, 0); (5, 3, 1)]%float).
  - repeat constructor.
    + exists "MSE", [replaced_message "MSE" "MET"]. reflexivity.
    + exists "SEP", [replaced_message "SEP" "SER"]. reflexivity.
    + exists "HIS", []. reflexivity.
  - apply le_n.
  - apply le_n.
Defined.

Lemma list_ascii_app a b :
  list_ascii_of_string (a ++ b) = (list_ascii_of_string a ++ list_ascii_of_string b)%list.
Proof. induction a as [|c a IH]; cbn; [reflexivity|now rewrite IH]. Qed.

Lemma search_after_1 s : search_PEP_at_end (s ++ "1") = false.
Proof.
  unfold search_PEP_at_end, ends_with.
  rewrite list_ascii_app, rev_app_distr. reflexivity.
Qed.

(** X15: the result of [pep2pep1] never ends in [PEP] (nor in [PEP] and a
    newline), so that [pep2pep1] is idempotent. *)
Theorem pep2pep1_idempotent _id :
  search_PEP_at_end (pep2pep1 _id) = false
  /\ pep2pep1 (pep2pep1 _id) = pep2pep1 _id.
Proof.
  assert (H : search_PEP_at_end (pep2pep1 _id) = false).
  { unfold pep2pep1. destruct (search_PEP_at_end _id) eqn:E;
      [apply search_after_1|exact E]. }
  split; [exact H|].
  unfold pep2pep1 at 1. now rewrite H.
Qed.

End ResidueFacts.

(** ** Trajectories *)

Module TrajectoryFacts.
Import Np SCModeler Trajectory.

Lemma comprehension_ok {A B} (f : A -> result B) (P : A -> B -> Prop) l :
  Forall (fun a => exists b, f a = Ok b /\ P a b) l ->
  exists bs, comprehension f l = Ok bs /\ Forall2 P l bs.
Proof.
  induction 1 as [|a l (b & Hb & HP) _ (bs & Hbs & HF)].
  - exists []. split; [reflexivity|constructor].
  - exists (b :: bs). cbn [comprehension]. rewrite Hb, Hbs.
    split; [reflexivity|now constructor].
Qed.

Lemma comprehension_raises {A B} (f : A -> result B) e l :
  Forall (fun a => (exists b, f a = Ok b) \/ f a = Raise e) l ->
  Exists (fun a => f a = Raise e) l ->
  comprehension f l = Raise e.
Proof.
  induction 1 as [|a l Ha Hl IH]; intros Hex; [inversion Hex|].
  cbn [comprehension].
  destruct Ha as [(b & Hb)|Ha]; [|now rewrite Ha].
  rewrite Hb. cbn [bind].
  inversion Hex as [? ? Hhd|? ? Htl]; subst; [congruence|].
  now rewrite (IH Htl).
Qed.

(** With the generic residue type a chain is rebuilt or is too short. *)
Lemma rebuild_generic nms vec :
  (exists out, rebuild_one nms vec false = Ok out /\ List.length out = List.length vec)
  \/ rebuild_one nms vec false = Raise IndexError.
Proof.
  destruct (Nat.lt_ge_cases (List.length vec) 3) as [Hs|Hl].
  - right. now apply RebuildFacts.rebuild_one_short.
  - left. destruct (RebuildFacts.rebuild_one_ok nms vec false Hl) as (pv & out & _ & H & Hlen & _);
      [discriminate|eauto].
Qed.

Lemma frame_generic nms frame :
  (exists out, comprehension (fun j => rebuild_one nms j false) frame = Ok out
     /\ Forall2 (fun chain o => List.length o = List.length chain) frame out)
  \/ comprehension (fun j => rebuild_one nms j false) frame = Raise IndexError.
Proof.
  induction frame as [|chain frame IH];
    [left; eexists; split; [reflexivity|constructor]|].
  cbn [comprehension].
  destruct (rebuild_generic nms chain) as [(o & -> & Ho)| ->]; [|now right].
  cbn [bind]. destruct IH as [(out & -> & Hout)| ->]; [|now right].
  left. eexists. split; [reflexivity|now constructor].
Qed.

Lemma same_shape_refl s : same_shape s s = true.
Proof. induction s as [|n s IH]; [reflexivity|]. cbn. now rewrite Nat.eqb_refl. Qed.

(** Arrays of one shape make an array. *)
Lemma np_array_one_shape {A} (shape : A -> list nat) s l :
  Forall (fun a => shape a = s) l -> np_array shape l = Ok l.
Proof.
  intros H. unfold np_array.
  destruct H as [|a l Ha Hl]; [reflexivity|].
  cbn [map one_shape]. rewrite Ha.
  replace (forallb (same_shape s) (map shape l)) with true; [reflexivity|].
  symmetry. apply forallb_forall. intros x Hx.
  apply in_map_iff in Hx as (b & <- & Hb).
  rewrite Forall_forall in Hl. rewrite (Hl b Hb). apply same_shape_refl.
Qed.

(** The rebuilt chains of a frame whose chains have one length make an
    array. *)
Lemma rebuilt_frame_array n (frame out : list (list V3)) :
  Forall (fun chain => List.length chain = n) frame ->
  Forall2 (fun chain o => List.length o = List.length chain) frame out ->
  np_array chain_shape out = Ok out.
Proof.
  intros Hn H. apply np_array_one_shape with (s := [n; 3%nat]).
  induction H as [|chain o frame out Ho _ IH]; [constructor|].
  inversion Hn; subst. constructor; [|now apply IH].
  unfold chain_shape. now rewrite Ho.
Qed.

(** X16: when all frames have the same number of chains and all chains
    the same number of points, at least three, [calculate_cb_traj] returns
    a trajectory of the same shape: as many frames, as many chains in each
    frame and as many points in each chain. *)
Theorem cb_traj_shape nms traj c n :
  (3 <= n)%nat ->
  Forall (fun frame => List.length frame = c
                       /\ Forall (fun chain => List.length chain = n) frame) traj ->
  exists out, calculate_cb_traj nms traj = Ok out
    /\ Forall2 (Forall2 (fun chain o => List.length o = List.length chain)) traj out.
Proof.
  intros Hn H. unfold calculate_cb_traj, _calculate_traj.
  destruct (comprehension_ok
              (fun i => chains <- comprehension (fun j => rebuild_one nms j false) i ;;
                        np_array chain_shape chains)
              (Forall2 (fun chain o => List.length o = List.length chain)) traj)
    as (out & -> & Hout).
  { apply Forall_forall. intros frame Hin.
    rewrite Forall_forall in H. destruct (H frame Hin) as [_ Hf].
    destruct (comprehension_ok (fun j => rebuild_one nms j false)
                (fun chain o => List.length o = List.length chain) frame)
      as (o & -> & Ho).
    { apply Forall_forall. intros chain Hc.
      rewrite Forall_forall in Hf. specialize (Hf chain Hc).
      destruct (RebuildFacts.rebuild_one_ok nms chain false) as (pv & o & _ & Ho & Hlen & _);
        [lia|discriminate|eauto]. }
    cbn [bind]. exists o. split; [|exact Ho].
    eapply rebuilt_frame_array; eassumption. }
  cbn [bind]. exists out. split; [|exact Hout].
  apply np_array_one_shape
    with (s := match c with O => [0%nat] | S _ => [c; n; 3%nat] end).
  clear -H Hout.
  induction Hout as [|frame o traj out Ho _ IH]; [constructor|].
  apply Forall_cons_iff in H as [[Hc Hf] Ht]. constructor; [|now apply IH].
  destruct Ho as [|chain oc frame o Hoc Ho]; [now rewrite <- Hc|].
  apply Forall_cons_iff in Hf as [Hchain _].
  rewrite <- Hc. cbn [frame_shape List.length]. unfold chain_shape.
  now rewrite Hoc, Hchain, (Forall2_length Ho).
Qed.

(** X17: when some chain of a frame has fewer than three points and, in
    each frame before it, the chains have one length, [calculate_cb_traj]
    raises [IndexError], whatever the other chains of the frame and the
    frames after it are. *)
Theorem cb_traj_short_chain nms before frame after :
  Forall (fun f => exists n, Forall (fun chain => List.length chain = n) f) before ->
  Exists (fun chain => (List.length chain < 3)%nat) frame ->
  calculate_cb_traj nms (before ++ frame :: after) = Raise IndexError.
Proof.
  intros Hb Hex. unfold calculate_cb_traj, _calculate_traj.
  replace (comprehension _ (before ++ frame :: after))
    with (@Raise (list (list (list V3))) IndexError); [reflexivity|].
  symmetry. induction Hb as [|f before (n & Hf) _ IH].
  - cbn [app comprehension].
    replace (comprehension (fun j => rebuild_one nms j false) frame)
      with (@Raise (list (list V3)) IndexError); [reflexivity|].
    symmetry. apply comprehension_raises.
    + apply Forall_forall. intros chain _.
      destruct (rebuild_generic nms chain) as [(o & Ho & _)|Hr]; [left; eauto|now right].
    + apply Exists_exists in Hex as (chain & Hc & Hs).
      apply Exists_exists. exists chain. split; [exact Hc|].
      now apply RebuildFacts.rebuild_one_short.
  - cbn [app comprehension].
    destruct (frame_generic nms f) as [(o & -> & Ho)| ->]; [|reflexivity].
    cbn [bind]. rewrite (rebuilt_frame_array n f o Hf Ho). cbn [bind].
    now rewrite IH.
Qed.

Lemma cb_traj_shape_witness :
  exists out,
    calculate_cb_traj []
      [[[(0, 0, 0); (3.8, 0, 0); (5, 3, 1)]; [(1, 1, 1); (2, 4, 1); (5, 5, 2)]];
       [[(0, 1, 0); (3.8, 1, 0); (5, 4, 1)]; [(1, 2, 1); (2, 5, 1); (5, 6, 2)]]]
    = Ok out
    /\ Forall2 (Forall2 (fun chain o => List.length o = List.length chain))
         [[[(0, 0, 0); (3.8, 0, 0); (5, 3, 1)]; [(1, 1, 1); (2, 4, 1); (5, 5, 2)]];
          [[(0, 1, 0); (3.8, 1, 0); (5, 4, 1)]; [(1, 2, 1); (2, 5, 1); (5, 6, 2)]]]
         out.
Proof.
  apply (cb_traj_shape []
           [[[(0, 0, 0); (3.8, 0, 0); (5, 3, 1)]; [(1, 1, 1); (2, 4, 1); (5, 5, 2)]];
            [[(0, 1, 0); (3.8, 1, 0); (5, 4, 1)]; [(1, 2, 1); (2, 5, 1); (5, 6, 2)]]]
           2%nat 3%nat).
  - lia.
  - repeat constructor.
Defined.

Lemma cb_traj_short_chain_witness :
  calculate_cb_traj []
    ([[[(0, 0, 0); (3.8, 0, 0); (5, 3, 1)]]]
       ++ [[(4, 0, 0); (7.8, 0, 0); (9, 3, 1); (9, 6, 1)]; [(1, 1, 1); (2, 4, 1)]]
       :: [[]])
  = Raise IndexError.
Proof.
  apply (cb_traj_short_chain []
           [[[(0, 0, 0); (3.8, 0, 0); (5, 3, 1)]]]
           [[(4, 0, 0); (7.8, 0, 0); (9, 3, 1); (9, 6, 1)]; [(1, 1, 1); (2, 4, 1)]]
           [[]]).
  - constructor; [|constructor]. exists 3%nat. repeat constructor.
  - apply Exists_cons_tl, Exists_cons_hd. cbn. lia.
Defined.

End TrajectoryFacts.

(** ** Named residues and the returned RMSD *)

Module NamedRebuildFacts.
Import Np SCModeler.

Lemma rebuild_residue_unknown nms pv i name :
  (i + 2 < List.length pv)%nat ->
  nth_error nms i = Some name -> ~ known name ->
  rebuild_residue nms true pv i = Raise (KeyError name).
Proof.
  intros Hi Hn Hk. unfold rebuild_residue.
  destruct (RebuildFacts.getitem_ok pv i) as [c1 ->]; [lia|].
  destruct (RebuildFacts.getitem_ok pv (i + 1)) as [c2 ->]; [lia|].
  destruct (RebuildFacts.getitem_ok pv (i + 2)) as [c3 ->]; [lia|].
  cbn [bind]. destruct (_calc_rot_mtx c1 c2 c3) as [rot casdist].
  apply RebuildFacts.getitem_Ok in Hn. rewrite Hn. cbn [bind].
  unfold subscript. unfold known in Hk.
  destruct (lookup name SIDECNT); [exfalso; apply Hk; discriminate|reflexivity].
Qed.

Lemma rebuild_loop_first_failure nms sc pv pre i post e :
  (forall j, In j pre -> exists p, rebuild_residue nms sc pv j = Ok p) ->
  rebuild_residue nms sc pv i = Raise e ->
  rebuild_loop nms sc pv (pre ++ i :: post) = Raise e.
Proof.
  induction pre as [|j pre IH]; intros Hpre Hi; cbn [app rebuild_loop].
  - now rewrite Hi.
  - destruct (Hpre j (or_introl eq_refl)) as [p ->]. cbn [bind].
    rewrite IH; [reflexivity| |exact Hi].
    intros k Hk. apply Hpre. now right.
Qed.

(** X18: with the real residue names, the first name without an entry in
    [SIDECNT] makes [rebuild_one] raise [KeyError] with that name. *)
Theorem rebuild_one_unknown_name nms vec i name :
  (3 <= List.length vec)%nat -> (i < List.length vec)%nat ->
  nth_error nms i = Some name -> ~ known name ->
  (forall j, (j < i)%nat -> exists n, nth_error nms j = Some n /\ known n) ->
  rebuild_one nms vec true = Raise (KeyError name).
Proof.
  intros Hlen Hi Hn Hk Hbefore.
  destruct (RebuildFacts.padded_ok vec Hlen) as (pv & Hpv & Hpl).
  unfold rebuild_one. rewrite Hpv. cbn [bind].
  replace (List.length pv - 2)%nat with (i + S (List.length vec - S i))%nat by lia.
  rewrite seq_app. cbn [seq plus].
  apply rebuild_loop_first_failure.
  - intros j Hj. apply in_seq in Hj. apply RebuildFacts.rebuild_residue_ok; [lia|].
    intros _. apply Hbefore. lia.
  - apply rebuild_residue_unknown; [lia|assumption|assumption].
Qed.

Lemma rebuild_one_unknown_name_witness :
  rebuild_one ["ALA"; "XXX"; "GLY"]%string [(0, 0, 0); (3.8, 0, 0); (5, 3, 1)] true
  = Raise (KeyError "XXX").
Proof.
  apply (rebuild_one_unknown_name ["ALA"; "XXX"; "GLY"]%string
           [(0, 0, 0); (3.8, 0, 0); (5, 3, 1)] 1 "XXX"%string).
  - apply le_n.
  - repeat constructor.
  - reflexivity.
  - intros H. apply H. reflexivity.
  - intros j Hj. exists "ALA"%string.
    assert (j = 0%nat) as -> by lia.
    split; [reflexivity|discriminate].
Defined.

End NamedRebuildFacts.

Module RmsdFacts.
Import Np Align.

Lemma is_nan_eq x : is_nan x = true -> x = nan.
Proof.
  unfold is_nan. rewrite classify_spec. intros H.
  apply Prim2SF_inj. change (Prim2SF nan) with S754_nan.
  destruct (Prim2SF x) as [s|s| |s m e]; try reflexivity; exfalso.
  - destruct s; discriminate.
  - destruct s; discriminate.
  - destruct s; cbn in H;
      match type of H with context [if ?b then _ else _] => destruct b end;
      discriminate.
Qed.

Lemma above_is_number x : (_TINY <? x) = true -> is_nan x = false.
Proof.
  intros H. destruct (is_nan x) eqn:E; [|reflexivity].
  apply is_nan_eq in E. subst x. vm_compute in H. discriminate.
Qed.

Lemma bind_Ok {A B} (x : result A) (k : A -> result B) b :
  bind x k = Ok b -> exists a, x = Ok a /\ k a = Ok b.
Proof. destruct x as [a|e]; cbn; [eauto|discriminate]. Qed.

Lemma rmsd_reported target query weights x :
  rmsd target query weights = Ok x -> reported x.
Proof.
  unfold rmsd. intros H. apply bind_Ok in H as (raw & _ & H).
  inversion H. unfold reported.
  destruct (_TINY <? raw) eqn:E; [right; exact E|now left].
Qed.

Lemma loop_body_reported E target query w p :
  loop_body E target query w = Ok p -> reported (_current p).
Proof.
  unfold loop_body. intros H.
  apply bind_Ok in H as (tc & _ & H).
  apply bind_Ok in H as (qc & _ & H).
  apply bind_Ok in H as (rot & _ & H).
  apply bind_Ok in H as (d & _ & H).
  apply bind_Ok in H as (c & Hc & H).
  inversion H; subst. cbn [_current]. eapply rmsd_reported, Hc.
Qed.

Lemma loop_reported E target query left : forall _rmsd w x rot tc qc,
  _rmsd = _LARGE \/ reported _rmsd ->
  loop E left target query _rmsd w = Ok (x, rot, tc, qc) ->
  x = _LARGE \/ reported x.
Proof.
  induction left as [|left IH]; intros _rmsd w x rot tc qc Hr H; [discriminate|].
  cbn [loop] in H. apply bind_Ok in H as (p & Hp & H).
  destruct (converged _rmsd p).
  - inversion H; subst. exact Hr.
  - eapply IH; [|exact H]. right. eapply loop_body_reported, Hp.
Qed.

(** X19: the RMSD that [dynamic_kabsch] returns is the initial [1000.0],
    zero, or a number above [0.001]; it is never not-a-number, whatever
    the points and the external routines. *)
Theorem dynamic_kabsch_rmsd_is_number E target query x rot tc qc :
  dynamic_kabsch E target query = Ok (x, rot, tc, qc) ->
  (x = 1000 \/ x = 0 \/ (0.001 <? x) = true) /\ is_nan x = false.
Proof.
  intros H.
  assert (Hx : x = _LARGE \/ reported x)
    by (eapply loop_reported; [left; reflexivity|exact H]).
  split.
  - destruct Hx as [->|[->|Hx]]; auto.
  - destruct Hx as [->|[->|Hx]]; [reflexivity|reflexivity|now apply above_is_number].
Qed.

Lemma dynamic_kabsch_rmsd_is_number_witness :
  ((0 = 1000 \/ 0 = 0 \/ (0.001 <? 0) = true) /\ is_nan 0 = false)%float.
Proof.
  apply (dynamic_kabsch_rmsd_is_number Examples.externals
           (Examples.opposite 1) (Examples.opposite 1) 0 identity3 zero3 zero3).
  vm_compute. reflexivity.
Defined.

End RmsdFacts.

(** ** [smart_flatten] *)

Module FlattenFacts.
Import Utils Flatten.
Local Open Scope string_scope.

Lemma split_length sep s : List.length (split_on sep s) = S (count_char sep s).
Proof.
  induction s as [|c s IH]; [reflexivity|]. cbn [split_on count_char].
  destruct (Ascii.eqb c sep).
  - cbn [List.length]. now rewrite IH.
  - destruct (split_on sep s) as [|f fs]; [discriminate|]. exact IH.
Qed.

Lemma split_no_sep sep s : count_char sep s = 0%nat -> split_on sep s = [s].
Proof.
  induction s as [|c s IH]; [reflexivity|]. cbn [split_on count_char].
  destruct (Ascii.eqb c sep); [discriminate|].
  intros H. now rewrite IH.
Qed.

Lemma split_join sep a b :
  count_char sep a = 0%nat -> count_char sep b = 0%nat ->
  split_on sep (a ++ String sep b) = [a; b].
Proof.
  intros Ha Hb. induction a as [|c a IH].
  - cbn [append split_on]. rewrite Ascii.eqb_refl. now rewrite split_no_sep.
  - cbn [append split_on count_char] in Ha |- *.
    destruct (Ascii.eqb c sep); [discriminate|].
    now rewrite IH.
Qed.

Lemma count_app sep a b :
  count_char sep (a ++ b) = (count_char sep a + count_char sep b)%nat.
Proof. induction a as [|c a IH]; cbn; [reflexivity|rewrite IH; lia]. Qed.

Lemma uint_no_dash u : count_char dash (NilEmpty.string_of_uint u) = 0%nat.
Proof. induction u; cbn; auto. Qed.

Lemma format_nonneg_no_dash z : (0 <= z)%Z -> count_char dash (format_i z) = 0%nat.
Proof.
  intros H. unfold format_i, NilZero.string_of_int.
  destruct z as [|p|p]; [reflexivity| |lia].
  cbn [Z.to_int]. unfold NilZero.string_of_uint.
  destruct (Pos.to_uint p); try reflexivity; apply (uint_no_dash (_ u)).
Qed.

Lemma format_neg_dash z : (z < 0)%Z -> (1 <= count_char dash (format_i z))%nat.
Proof.
  intros H. unfold format_i, NilZero.string_of_int.
  destruct z as [|p|p]; [lia|lia|].
  cbn [Z.to_int count_char]. cbn. lia.
Qed.

Section WithInt.
Variable int : string -> outcome Z.

Lemma flatten_loop_acc l : forall fl,
  flatten_loop int l fl
  = match flatten_loop int l [] with
    | Return ks => Return (fl ++ ks)%list
    | Fail e => Fail e
    end.
Proof.
  induction l as [|i l IH]; intros fl; cbn [flatten_loop].
  - now rewrite app_nil_r.
  - destruct (flatten_item int i) as [ks|e]; [|reflexivity].
    rewrite IH, (IH ([] ++ ks)%list).
    destruct (flatten_loop int l []); [|reflexivity].
    now rewrite <- app_assoc.
Qed.

Lemma flatten_item_many_dashes i :
  (2 <= count_char dash i)%nat -> flatten_item int i = Fail TypeError.
Proof.
  intros H. unfold flatten_item, contains_char.
  destruct (Nat.eqb_spec (count_char dash i) 0); [lia|]. cbn [negb].
  rewrite split_length.
  destruct (Nat.eqb_spec (S (count_char dash i)) 2); [lia|reflexivity].
Qed.

Lemma smart_flatten_app_gen l1 l2 a :
  smart_flatten int l1 = Return a ->
  smart_flatten int (l1 ++ l2)
  = match smart_flatten int l2 with
    | Return b => Return (a ++ b)%list
    | Fail e => Fail e
    end.
Proof.
  unfold smart_flatten. revert a.
  induction l1 as [|i l1 IH]; intros a H.
  - cbn in H. inversion H. cbn [app]. now destruct (flatten_loop int l2 []).
  - cbn [app flatten_loop] in H |- *.
    destruct (flatten_item int i) as [ks|e]; [|discriminate].
    rewrite flatten_loop_acc in H. rewrite flatten_loop_acc.
    destruct (flatten_loop int l1 []) as [ks'|e] eqn:E; [|discriminate].
    inversion H; subst. rewrite (IH ks' eq_refl).
    destruct (flatten_loop int l2 []); [|reflexivity].
    now rewrite app_assoc.
Qed.

End WithInt.

(** X20: [smart_flatten] goes through its argument piece by piece: when
    two lists are flattened without an exception, their concatenation is
    flattened into the concatenation of the two results. *)
Theorem smart_flatten_app int l1 l2 a b :
  smart_flatten int l1 = Return a -> smart_flatten int l2 = Return b ->
  smart_flatten int (l1 ++ l2) = Return (a ++ b)%list.
Proof. intros H1 H2. now rewrite (smart_flatten_app_gen int l1 l2 a H1), H2. Qed.

(** X21: an item with two or more dashes, reached after items that were
    flattened, never gives the exception that names the invalid range
    syntax: building its message adds a string and a list, and the call
    ends with [TypeError]. *)
Theorem smart_flatten_invalid_syntax int pre item post fl :
  smart_flatten int pre = Return fl ->
  (2 <= count_char dash item)%nat ->
  smart_flatten int (pre ++ item :: post) = Fail TypeError.
Proof.
  intros Hpre Hd. rewrite (smart_flatten_app_gen int pre (item :: post) fl Hpre).
  unfold smart_flatten. cbn [flatten_loop].
  now rewrite flatten_item_many_dashes.
Qed.

(** X22: the text [a-(b-1)] of a half-open range [(a, b)] of non-negative
    integers, as [ranges] returns them, is flattened into the integers
    of [range(a, b)], provided [int] reads back the two numbers. *)
Theorem smart_flatten_range int a b :
  (0 <= a < b)%Z ->
  int (format_i a) = Return a ->
  int (format_i (b - 1)) = Return (b - 1)%Z ->
  smart_flatten int [format_i a ++ String dash (format_i (b - 1))]
  = Return (py_range a b).
Proof.
  intros Hab Ha Hb. unfold smart_flatten. cbn [flatten_loop].
  unfold flatten_item, contains_char.
  rewrite count_app. cbn [count_char]. rewrite Ascii.eqb_refl.
  rewrite !format_nonneg_no_dash by lia. cbn [Nat.add Nat.eqb negb].
  rewrite split_join by (apply format_nonneg_no_dash; lia).
  cbn [List.length Nat.eqb negb nth]. rewrite Ha, Hb.
  destruct (Z.ltb_spec (b - 1) a); [lia|].
  cbn [app]. do 2 f_equal. lia.
Qed.

(** X23: a range cannot start at a negative integer: the sign is taken
    for a separator and the call ends with [TypeError], whatever [int]
    does. *)
Theorem smart_flatten_negative_start int a b :
  (a < 0)%Z ->
  smart_flatten int [format_i a ++ String dash (format_i b)] = Fail TypeError.
Proof.
  intros Ha. unfold smart_flatten. cbn [flatten_loop].
  rewrite flatten_item_many_dashes; [reflexivity|].
  rewrite count_app. cbn [count_char]. rewrite Ascii.eqb_refl.
  pose proof (format_neg_dash a Ha). lia.
Qed.

Lemma smart_flatten_app_witness :
  smart_flatten int_of_digits (["1-3"] ++ ["7"]) = Return ([1; 2; 3] ++ [7])%Z%list.
Proof. apply (smart_flatten_app int_of_digits ["1-3"] ["7"]); reflexivity. Defined.

Lemma smart_flatten_invalid_syntax_witness :
  smart_flatten int_of_digits (["4"] ++ "1-2-3" :: ["9"]) = Fail TypeError.
Proof.
  apply (smart_flatten_invalid_syntax int_of_digits ["4"] "1-2-3" ["9"] [4%Z]).
  - reflexivity.
  - apply le_n.
Defined.

Lemma smart_flatten_range_witness :
  smart_flatten int_of_digits [format_i 3 ++ String dash (format_i (6 - 1))]
  = Return (py_range 3 6).
Proof.
  apply (smart_flatten_range int_of_digits 3 6).
  - split; [discriminate|reflexivity].
  - reflexivity.
  - reflexivity.
Defined.

Lemma smart_flatten_negative_start_witness :
  smart_flatten int_of_digits [format_i (-3) ++ String dash (format_i 5)] = Fail TypeError.
Proof. apply (smart_flatten_negative_start int_of_digits (-3) 5). reflexivity. Defined.

End FlattenFacts.
